(* ===== verification/_CoqProject ===== *)
-Q . S2P
Prelude.v
PyStr.v
Xml.v
Codec.v
Rule.v
Group.v
RuleFile.v
Heap.v
Spec.v
