(* ===== verification/Prelude.v ===== *)
(** * Verification of build_rule: the round-trip transformer of BUILD_RULE files

    ** The program

    [src/build_rule.py] reads an XML file of versioned groups of build
    rules with lxml, keeps it as three nested [NamedTuple]s and writes it
    back:
    - [BuildRule] (lines 9-32): four string fields; [parse] reads the
      attributes [productname], [added_contition] (the misspelling is the
      wire format), [addname], [target] of a node; [to_element] builds a
      [<rule>] element with them and returns [(True, element)].
    - [BuildGroup] (lines 35-67): [name], [weight], [producttype] and a
      list of rules; [parse] reads the three attributes, then parses
      every child node as a rule, in order; [to_element] builds
      [<buildgroup>] and appends each rule's element, returning
      [(False, None)] as soon as a rule reports failure.
    - [BuildRuleFile] (lines 70-108): a [version] and a list of groups;
      [parse(filepath)] takes the first child of the root as the version
      element, lower-cases its tag and parses each of its children as a
      group; [to_element] builds [<BUILD_RULE>] with one sub-element
      tagged with the upper-cased version holding the groups; [write]
      serialises and writes the file, returning [False] if [to_element]
      did.
    - [main] (lines 111-114) parses [turing.xml], prints it and writes it
      back over the same file; the guard [if __name__ == '__main__']
      (lines 117-118) runs it when the file is run as a script.
    The levels interact only through [parse]/[to_element] of the level
    below, called in a loop.

    ** The library

    - [Prelude] (this file): Python's exceptions ([pyexc]) and the
      exception monad [exc] (stdpp's [≫=] and [x ← m; k] notations), the
      reference [traverse] of a loop that stops at the first exception,
      association lists with the update rule of dicts and lxml attribute
      sets, the hint databases [pyrt] and [pyrw] and the tactic [exc_inv].
    - [PyStr]: [str.lower] and [str.upper] ([str_lower], [str_upper]) and
      their algebra: [lower (upper s) = lower s], and
      [upper (lower s) = s] exactly when [s] has no lower-case letter.
    - [Xml]: the lxml API the program calls, as a value model: nodes
      (elements, comments, processing instructions), [.tag], [.attrib[k]]
      (with the pseudo-attributes lxml parses out of a processing
      instruction), iteration, [x[0]], [etree.Element] with lxml's
      [ValueError] checks on tags and strings, attribute set and
      [append]; the invariant [wf_node] of trees [etree.parse] returns,
      and the fact that case mappings keep tags valid (Section [CaseMap]).
    - [Codec]: the interface between levels, the class [Codec] (parse,
      to_element, encodable) with its laws [CodecLaws], and the two loops
      the program writes twice, [parse_loop] (lines 48-51 and 83-86) and
      [append_loop] (lines 61-65 and 94-98), with their theorems proved
      against the interface: a loop is the reference traversal, an
      encodable list is appended in order, a refused item raises.
    - [Spec]: the file format of the spec's section 6 as inductive
      relations between trees and documents (Module [FileFormat]:
      [rule_tree], [group_tree], [file_tree] for what the parse must
      read, [written_tree] for what the writer must produce: root
      [BUILD_RULE], the version upper-cased), decided by boolean checks
      ([file_treeb], instance [file_tree_dec]), and the refinement
      theorems between the code and the format.
    - [Rule], [Group], [RuleFile]: one Module per class ([BuildRule],
      [BuildGroup], [BuildRuleFile]), a Record for its fields and one
      Definition per method, named as in the code; [Rule] and [Group]
      discharge [CodecLaws].  [RuleFile] also models the file system as
      a [gmap] from paths to files (an XML tree or a non-XML file), the
      outcome of [tree.write]'s file operation as an input [io_fault]
      (it succeeds; the [open] fails before the file is touched; the
      write fails after the [open] truncated the file, leaving a file
      that is not XML), [main] as a function of the file system, the
      printed output and that outcome, and the module guard as [script].
    - [Heap] (Module [HeapModel]): lxml's mutable tree as a store of
      linked nodes (a [gmap] from locations to cells with tag,
      attributes, children and parent, and the next free location),
      threaded by a state-and-exception monad [hst]; [etree.Element]
      allocates, [etree.SubElement] allocates and links, [append] checks
      that the child is not an ancestor, detaches it and links it last.
      The three [to_element] methods are run on it exactly as written,
      [version_ele] being an alias of the child [SubElement] linked
      under [root_ele].  [materialize] reads a node back as a tree.

    ** The theorems

    - Round trip: when the file operation succeeds, writing a document
      parsed from a well-formed file and parsing the file written gives
      the same document, whatever the case of the version tag
      ([parse_write_parse]); a document lxml accepts is read back with
      its version lower-cased ([roundtrip_write_parse]); the version tag
      is written as the tag read, lowered and upper-cased, equal to it
      exactly when it has no lower-case letter ([version_tag_written]).
      Per level: [rule_roundtrip], [group_roundtrip].
    - Node identity ([Heap]): run by mutation, [to_element] returns a
      root from which the value model's tree is read back, exceptions
      included ([file_to_element_refines]), keeps the store well formed
      and every older node unchanged ([file_to_element_store]).  The
      proof goes level by level through the simulation relation
      [builds]; it justifies the value model's late link of the version
      element.
    - Parsing: attribute fidelity and order ([rule_parse_ok_iff],
      [group_parse_ok_iff]); errors: the [KeyError] names the first
      missing attribute in the order of the code ([rule_parse_missing],
      [group_parse_missing]); a bad child, a comment for one, aborts its
      group ([group_parse_child_error]); [IndexError] and
      [AttributeError] on a root without element child
      ([parse_root_no_child], [parse_root_first_not_element]); only the
      first child of the root is read ([parse_root_first_only]); a
      processing instruction whose text gives the four fields as
      pseudo-attributes is read as a rule ([rule_parse_pi]).
    - Writing and the program: rules and groups are written in order
      ([group_children_in_order]); [write] never returns [False]
      ([write_never_false]) but raises [ValueError] for a document lxml
      refuses, before the file is opened ([write_err]); an exception of
      [main] leaves the files as they were but after a write that failed
      once the file was truncated ([main_raise_files]); since [main]
      rewrites the file it reads, such a failure loses the input and
      every later run fails ([script_write_fault_loses_input]); [main]
      is idempotent ([main_idempotent]).
    - Refinement ([Spec]): a tree in the format parses to its document
      ([spec_parse_complete]); what the writer produces is in the write
      format ([spec_write_sound]); the parse ignores the tags of groups
      and rules, accepting trees outside the format
      ([parse_ignores_tags]).

    ** Bounds and fuel

    The only bounded recursion of the code's model is [pi_findall]
    (lxml's [re.findall] over a processing instruction's text), run with
    fuel [String.length s]; each match consumes a character, and
    [pi_findall_fuel_adequate] proves any larger fuel gives the same
    result.  [HeapModel.ancestors] walks parent links with fuel
    [size (cells h)]: in an ordered store a parent has a smaller
    location, so that many steps reach the root.  [HeapModel.materialize]
    reads the store with fuel 4, the depth of every tree the program
    builds (root, version, group, rule); [builds] states the reading for
    every larger fuel.  Everything else is structural; the program has
    no loop other than its [for] loops over finite lists.

    ** What is not modelled

    - The XML text: [etree.parse] and [tree.write(..., pretty_print=True)]
      are modelled on trees ([etree.parse] of a written tree gives it
      back); whitespace text and tails, which pretty printing changes and
      the program never reads, are not in the model.  Namespaces are kept
      in the tag string as lxml reports them; lxml's URI check of a
      namespace is not modelled.
    - File operations: a truncated file is one that is not XML; what a
      partial write leaves beyond that is not modelled.  A failure is the
      outcome of the one file operation the program does; concurrent
      writers (a non-goal of the spec, section 5) are not modelled.
    - Characters: strings are [Ascii.ascii] strings; the case mappings
      and the name and XML-character checks are exact on ASCII, and the
      model makes no claim on other characters.
    - [print]: the model records the printed document, not its [repr].
    - lxml's mutable tree is modelled in [Heap] for the writer; the
      parse side only reads and is kept on values.  The store does not
      free nodes (CPython's reference counting) and does not model
      [tail] text moved by [append].

    ** Plan for the following sittings

    - Python's case mappings beyond ASCII (Latin-1), and the documents
      whose versions are namespaced tags ([{}v] is written as [V]). *)

From Stdlib Require Import Ascii String.
From stdpp Require Import base list strings decidable option.

(** ** Python exceptions raised by the modelled code *)

(** The reasons lxml gives for a [ValueError] when an element is built. *)
Inductive value_error :=
  | VEmptyTag            (** "Empty tag name" *)
  | VInvalidTag          (** "Invalid tag name ..." *)
  | VNotXmlCompatible    (** "All strings must be XML compatible ..." *)
  | VAppendAncestor.     (** "cannot append parent to itself" *)

Inductive pyexc :=
  | KeyError (key : string)      (** [d[key]] on a missing key *)
  | IndexError                   (** [root[0]] on an element with no child *)
  | AttributeError               (** [.lower()] on a tag that is not a [str] *)
  | TypeError                    (** [' ' + None] *)
  | AssertionError               (** [ElementTree(None).write(...)] *)
  | ValueError (why : value_error)
  | XMLSyntaxError               (** [etree.parse] on a file that is not XML *)
  | OSError.                     (** [etree.parse] on a missing file *)

#[export] Instance value_error_eq_dec : EqDecision value_error.
Proof. solve_decision. Defined.
#[export] Instance pyexc_eq_dec : EqDecision pyexc.
Proof. solve_decision. Defined.

(** ** The exception monad: a Python computation returns or raises *)

Inductive exc (A : Type) := Ok (a : A) | Raise (e : pyexc).
Arguments Ok {A} a.
Arguments Raise {A} e.

#[export] Instance exc_eq_dec `{EqDecision A} : EqDecision (exc A).
Proof. solve_decision. Defined.

#[export] Instance exc_ret : MRet exc := fun _ a => Ok a.
#[export] Instance exc_bind : MBind exc :=
  fun _ _ f m => match m with Ok a => f a | Raise e => Raise e end.
#[export] Instance exc_fmap : FMap exc :=
  fun _ _ f m => match m with Ok a => Ok (f a) | Raise e => Raise e end.

Declare Scope exc_scope.
Delimit Scope exc_scope with exc.
Notation "'raise' e" := (Raise e) (at level 10) : exc_scope.
Open Scope exc_scope.

Definition is_ok {A} (m : exc A) : bool := match m with Ok _ => true | Raise _ => false end.

Section ExcLemmas.
Context {A B : Type}.

Lemma bind_Ok (a : A) (f : A -> exc B) : (Ok a ≫= f) = f a.
Proof. reflexivity. Qed.

Lemma bind_Raise (e : pyexc) (f : A -> exc B) : (Raise e ≫= f) = Raise e.
Proof. reflexivity. Qed.

Lemma bind_eq_Ok (m : exc A) (f : A -> exc B) (b : B) :
  (m ≫= f) = Ok b <-> exists a, m = Ok a /\ f a = Ok b.
Proof.
  destruct m as [a|e]; simpl; split.
  - eauto.
  - intros (? & [= ->] & ?); auto.
  - discriminate.
  - intros (? & ? & _); discriminate.
Qed.

Lemma bind_eq_Raise (m : exc A) (f : A -> exc B) (e : pyexc) :
  (m ≫= f) = Raise e <-> m = Raise e \/ exists a, m = Ok a /\ f a = Raise e.
Proof.
  destruct m as [a|e']; simpl; split.
  - eauto.
  - intros [?|(? & [= ->] & ?)]; [discriminate|auto].
  - intros [= ->]; auto.
  - intros [[= ->]|(? & ? & _)]; [auto|discriminate].
Qed.
End ExcLemmas.

Create HintDb pyrt discriminated.
Create Rewrite HintDb pyrw.
#[export] Hint Rewrite @bind_Ok @bind_Raise : pyrw.

(** Break every [m ≫= f = Ok b] hypothesis into its two steps. *)
Ltac exc_inv :=
  unfold mret, exc_ret in *;
  repeat match goal with
  | H : (_ ≫= _) = Ok _ |- _ =>
      apply bind_eq_Ok in H; destruct H as (? & ? & H)
  | H : Ok _ = Ok _ |- _ => injection H as H
  | H : Ok _ = Raise _ |- _ => discriminate H
  | H : Raise _ = Ok _ |- _ => discriminate H
  end; subst.

(** ** Traversal: the reference semantics of a loop that calls a fallible
    function on each element and stops at the first exception *)

Fixpoint traverse {A B} (f : A -> exc B) (l : list A) : exc (list B) :=
  match l with
  | [] => Ok []
  | x :: l' => y ← f x; ys ← traverse f l'; mret (y :: ys)
  end.

Section Traverse.
Context {A B : Type} (f : A -> exc B).

Lemma traverse_Ok_iff (l : list A) (ys : list B) :
  traverse f l = Ok ys <-> Forall2 (fun x y => f x = Ok y) l ys.
Proof.
  revert ys; induction l as [|x l IH]; intros ys; simpl.
  - split; [intros [= <-]; constructor | inversion 1; auto].
  - split.
    + intros H. exc_inv. constructor; [done|]. by apply IH.
    + inversion 1 as [|? y ? ys' Hx Hl]; subst.
      rewrite Hx. simpl. apply IH in Hl. by rewrite Hl.
Qed.

(** A traversal raises the exception of the first element that raises. *)
Lemma traverse_app_Raise (l1 l2 : list A) (x : A) (e : pyexc) ys :
  traverse f l1 = Ok ys -> f x = Raise e -> traverse f (l1 ++ x :: l2) = Raise e.
Proof.
  revert ys; induction l1 as [|x1 l1 IH]; intros ys H1 Hx; simpl.
  - by rewrite Hx.
  - simpl in H1. exc_inv. match goal with Hf : f x1 = Ok _ |- _ => rewrite Hf end.
    simpl. by erewrite IH.
Qed.

(** Traversing the images of a left inverse gives the list back. *)
Lemma traverse_map_inv (g : B -> A) (ys : list B) :
  (forall y, f (g y) = Ok y) -> traverse f (map g ys) = Ok ys.
Proof. intros Hg. induction ys as [|y ys IH]; simpl; [done|]. by rewrite Hg, IH. Qed.

Lemma traverse_length (l : list A) ys :
  traverse f l = Ok ys -> length ys = length l.
Proof. intros H%traverse_Ok_iff. symmetry. by eapply Forall2_length. Qed.
End Traverse.

(** ** Association lists with the update rule of Python dicts and lxml
    attribute sets: an existing key keeps its position and gets the new
    value, a new key is appended at the end. *)

Section Assoc.
Context {K V : Type} `{EqDecision K}.

Fixpoint assoc_get (k : K) (l : list (K * V)) : option V :=
  match l with
  | [] => None
  | (k', v) :: l' => if decide (k = k') then Some v else assoc_get k l'
  end.

Fixpoint assoc_set (k : K) (v : V) (l : list (K * V)) : list (K * V) :=
  match l with
  | [] => [(k, v)]
  | (k', v') :: l' =>
      if decide (k = k') then (k', v) :: l' else (k', v') :: assoc_set k v l'
  end.

(** The first of [keys] that [l] lacks: the key of the [KeyError] a
    sequence of lookups [l[k1]], [l[k2]], ... raises. *)
Fixpoint first_missing (keys : list K) (l : list (K * V)) : option K :=
  match keys with
  | [] => None
  | k :: ks => match assoc_get k l with None => Some k | Some _ => first_missing ks l end
  end.

Lemma assoc_get_set_eq k v l : assoc_get k (assoc_set k v l) = Some v.
Proof.
  induction l as [|[k' v'] l IH]; simpl.
  - by rewrite decide_True.
  - case_decide; simpl; [by rewrite decide_True|by rewrite decide_False].
Qed.

Lemma assoc_get_set_ne k k' v l :
  k <> k' -> assoc_get k' (assoc_set k v l) = assoc_get k' l.
Proof.
  intros Hne. induction l as [|[k'' v'] l IH]; simpl.
  - by rewrite decide_False.
  - repeat (case_decide; simplify_eq; simpl); auto.
Qed.
Lemma assoc_set_Forall (P : V -> Prop) k v l :
  P v -> Forall (fun kv => P kv.2) l -> Forall (fun kv => P kv.2) (assoc_set k v l).
Proof.
  intros Hv. induction l as [|[k' v'] l IH]; simpl; intros Hl; [by constructor|].
  inversion Hl; subst. case_decide; constructor; auto.
Qed.

Lemma assoc_get_Forall (P : V -> Prop) k v l :
  Forall (fun kv => P kv.2) l -> assoc_get k l = Some v -> P v.
Proof.
  induction l as [|[k' v'] l IH]; simpl; intros Hl; [discriminate|].
  inversion Hl; subst. case_decide; [intros [= <-]; done|auto].
Qed.
End Assoc.

#[export] Hint Rewrite @assoc_get_set_eq : pyrw.
