(* ===== verification/PyStr.v ===== *)
(** Python's [str.lower] and [str.upper] on the character set of the model.

    The model's characters are [Ascii.ascii]; on the ASCII range (codes
    0 to 127) these are exactly CPython's case mappings: [A-Z] and [a-z]
    swap and every other ASCII character is left alone.  The code calls
    them in [BuildRuleFile.parse] ([version_ele.tag.lower()]) and in
    [BuildRuleFile.to_element] ([self.version.upper()]). *)

From Stdlib Require Import Ascii String.
From stdpp Require Import base list strings decidable.
From S2P Require Import Prelude.

Definition is_upper_char (c : ascii) : bool :=
  (65 <=? nat_of_ascii c) && (nat_of_ascii c <=? 90).

Definition is_lower_char (c : ascii) : bool :=
  (97 <=? nat_of_ascii c) && (nat_of_ascii c <=? 122).

Definition char_lower (c : ascii) : ascii :=
  if is_upper_char c then ascii_of_nat (nat_of_ascii c + 32) else c.

Definition char_upper (c : ascii) : ascii :=
  if is_lower_char c then ascii_of_nat (nat_of_ascii c - 32) else c.

(** Apply a character mapping to each character. *)
Fixpoint str_map (f : ascii -> ascii) (s : string) : string :=
  match s with
  | EmptyString => EmptyString
  | String c s' => String (f c) (str_map f s')
  end.

(** [s.lower()] *)
Definition str_lower (s : string) : string := str_map char_lower s.

(** [s.upper()] *)
Definition str_upper (s : string) : string := str_map char_upper s.

Lemma str_map_map f g s : str_map f (str_map g s) = str_map (fun c => f (g c)) s.
Proof. induction s; simpl; congruence. Qed.

Lemma str_map_ext f g s : (forall c, f c = g c) -> str_map f s = str_map g s.
Proof. intros H. induction s; simpl; congruence. Qed.

Lemma str_map_app f s1 s2 : str_map f (s1 ++ s2)%string = (str_map f s1 ++ str_map f s2)%string.
Proof. induction s1 as [|c s1 IH]; simpl; [done|]. by rewrite IH. Qed.

(** [any(ch.islower() for ch in s)] on ASCII text. *)
Fixpoint has_lower (s : string) : bool :=
  match s with
  | EmptyString => false
  | String c s' => is_lower_char c || has_lower s'
  end.

(** A property of single characters is decided by trying all 256. *)
Ltac by_all_chars c :=
  destruct c as [[] [] [] [] [] [] [] []]; reflexivity.

Lemma char_lower_upper c : char_lower (char_upper c) = char_lower c.
Proof. by_all_chars c. Qed.

Lemma char_upper_lower c : char_upper (char_lower c) = char_upper c.
Proof. by_all_chars c. Qed.

Lemma char_upper_lower_not_lower c :
  is_lower_char c = false -> char_upper (char_lower c) = c.
Proof. destruct c as [[] [] [] [] [] [] [] []]; (reflexivity || discriminate). Qed.

Lemma char_upper_lower_lower c :
  is_lower_char c = true -> char_upper (char_lower c) <> c.
Proof. destruct c as [[] [] [] [] [] [] [] []]; (discriminate || (intros _; discriminate)). Qed.

Lemma str_lower_upper s : str_lower (str_upper s) = str_lower s.
Proof. unfold str_lower, str_upper. rewrite str_map_map. apply str_map_ext, char_lower_upper. Qed.

Lemma str_upper_lower s : str_upper (str_lower s) = str_upper s.
Proof. unfold str_lower, str_upper. rewrite str_map_map. apply str_map_ext, char_upper_lower. Qed.

Lemma str_lower_idem s : str_lower (str_lower s) = str_lower s.
Proof. unfold str_lower. rewrite str_map_map. apply str_map_ext. intros c. by_all_chars c. Qed.

#[export] Hint Rewrite str_lower_upper str_upper_lower str_lower_idem : pyrw.

(** Lowering then upper-casing gives back the string exactly when it
    has no lower-case letter. *)
Lemma str_upper_lower_id s : str_upper (str_lower s) = s <-> has_lower s = false.
Proof.
  unfold str_upper, str_lower in *.
  induction s as [|c s IH]; simpl; [done|].
  destruct (is_lower_char c) eqn:Hc; simpl.
  - split; [|discriminate]. intros [= Hc' _]. by apply char_upper_lower_lower in Hc.
  - rewrite char_upper_lower_not_lower by done. split.
    + intros [= H]. by apply IH.
    + intros H. by rewrite (proj2 IH H).
Qed.
