(* ===== verification/Xml.v ===== *)
(** The part of lxml's element API that [src/build_rule.py] uses.

    lxml is a library, not code of this repository: this file models the
    behaviour of the calls the program makes ([etree.Element],
    [etree.SubElement], [element.attrib[k]], [element.attrib[k] = v],
    [element.append], [element[0]], iteration over an element, [.tag]),
    including the checks by which lxml raises [ValueError] and the way
    comments and processing instructions appear among the children. *)

From Stdlib Require Import Ascii String.
From stdpp Require Import base list strings decidable.
From S2P Require Import Prelude PyStr.

(** ** Trees *)

(** A node as lxml returns it from [etree.parse] or from iteration over
    an element: an element, a comment or a processing instruction (all
    three are children of an element for lxml's [len], [x[i]] and [for]).
    Text and tails are not modelled: the program never reads them, and
    pretty printing changes only them. *)
#[warnings="-register-all"]
Inductive node :=
  | NElement (tag : string) (attrib : list (string * string)) (children : list node)
  | NComment (text : string)
  | NPI (target : string) (text : option string).

Fixpoint node_eq_dec' (n1 n2 : node) {struct n1} : Decision (n1 = n2).
Proof.
  refine (match n1, n2 with
  | NElement t1 a1 c1, NElement t2 a2 c2 =>
      cast_if_and3 (decide (t1 = t2)) (decide (a1 = a2)) (@list_eq_dec _ node_eq_dec' c1 c2)
  | NComment x, NComment y => cast_if (decide (x = y))
  | NPI a x, NPI b y => cast_if_and (decide (a = b)) (decide (x = y))
  | _, _ => right _ end); congruence.
Defined.
#[export] Instance node_eq_dec : EqDecision node := node_eq_dec'.

(** The value of [node.tag]: a string for an element, the factory
    functions [etree.Comment] and [etree.ProcessingInstruction] for the
    other two kinds. *)
Inductive tag_value := TagStr (s : string) | TagComment | TagPI.

Definition node_tag (n : node) : tag_value :=
  match n with
  | NElement t _ _ => TagStr t
  | NComment _ => TagComment
  | NPI _ _ => TagPI
  end.

(** [n.tag.lower()]: a function object has no [lower] method. *)
Definition tag_lower (t : tag_value) : exc string :=
  match t with
  | TagStr s => Ok (str_lower s)
  | _ => Raise AttributeError
  end.

(** ** Processing-instruction pseudo-attributes

    lxml's [_ProcessingInstruction.attrib] is
    [{attr: (v1 or v2) for attr, v1, v2 in _FIND_PI_ATTRIBUTES(' ' + self.text)}]
    where the regular expression matches: one or more whitespace
    characters, a group of word characters (the key), optional
    whitespace, [=], optional whitespace, and a value quoted with single
    or double quotes containing no such quote (the value).
    The pattern is deterministic ([\s] and [\w] are disjoint, each quoted
    value ends at its first closing quote), so one match attempt is a
    function of the suffix where it starts. *)

Definition is_py_space (c : ascii) : bool :=
  let n := nat_of_ascii c in
  ((9 <=? n) && (n <=? 13)) || ((28 <=? n) && (n <=? 32)).

Definition is_digit_char (c : ascii) : bool :=
  (48 <=? nat_of_ascii c) && (nat_of_ascii c <=? 57).

Definition is_word_char (c : ascii) : bool :=
  is_upper_char c || is_lower_char c || is_digit_char c || bool_decide (c = "_"%char).

(** Split off the longest prefix whose characters satisfy [p]. *)
Fixpoint span (p : ascii -> bool) (s : string) : string * string :=
  match s with
  | EmptyString => (EmptyString, EmptyString)
  | String c s' => if p c then let '(a, b) := span p s' in (String c a, b) else (EmptyString, s)
  end.

Definition squote : ascii := ascii_of_nat 39.
Definition dquote : ascii := ascii_of_nat 34.

(** [[^q]*q]: the text up to the first [q], and what follows that [q]. *)
Definition quoted (q : ascii) (s : string) : option (string * string) :=
  match span (fun c => negb (bool_decide (c = q))) s with
  | (v, String _ rest) => Some (v, rest)
  | (_, EmptyString) => None
  end.

(** One attempt of the pattern at the start of [s]. *)
Definition pi_match (s : string) : option (string * string * string) :=
  match span is_py_space s with
  | (EmptyString, _) => None
  | (_, s1) =>
    match span is_word_char s1 with
    | (EmptyString, _) => None
    | (key, s2) =>
      match snd (span is_py_space s2) with
      | String e s3 =>
        if bool_decide (e = "="%char) then
          match snd (span is_py_space s3) with
          | String q s4 =>
            if bool_decide (q = squote) || bool_decide (q = dquote)
            then '(v, rest) ← quoted q s4; Some (key, v, rest)
            else None
          | EmptyString => None
          end
        else None
      | EmptyString => None
      end
    end
  end.

(** [re.findall]: try at each position, resume after each match.  A match
    consumes at least one character, so [String.length s] steps suffice. *)
Fixpoint pi_findall (fuel : nat) (s : string) : list (string * string) :=
  match fuel with
  | O => []
  | S fuel' =>
    match pi_match s with
    | Some (k, v, rest) => (k, v) :: pi_findall fuel' rest
    | None => match s with EmptyString => [] | String _ s' => pi_findall fuel' s' end
    end
  end.

(** The dict comprehension: a later duplicate key overwrites the value. *)
Definition pi_pseudo_attrs (text : option string) : exc (list (string * string)) :=
  match text with
  | None => Raise TypeError
  | Some t =>
    let s := String " " t in
    Ok (fold_left (fun d kv => assoc_set kv.1 kv.2 d) (pi_findall (String.length s) s) [])
  end.

(** A string all of whose characters satisfy [p]. *)
Fixpoint str_forall (p : ascii -> bool) (s : string) : bool :=
  match s with EmptyString => true | String c s' => p c && str_forall p s' end.

(** [k='v'] followed by [rest], as it is written in the text of a
    processing instruction. *)
Definition kv_text (k v rest : string) : string :=
  k ++ String "=" (String squote (v ++ String squote rest)).

(** ** Reading nodes *)

(** [n.attrib]: the element's attributes; a comment has the immutable
    empty mapping; a processing instruction its pseudo-attributes. *)
Definition node_attrib (n : node) : exc (list (string * string)) :=
  match n with
  | NElement _ a _ => Ok a
  | NComment _ => Ok []
  | NPI _ t => pi_pseudo_attrs t
  end.

(** [d[k]] on a mapping: [KeyError(k)] when absent. *)
Definition lookup_key (k : string) (a : list (string * string)) : exc string :=
  match assoc_get k a with
  | Some v => Ok v
  | None => Raise (KeyError k)
  end.

(** [n.attrib[k]] *)
Definition attrib_get (n : node) (k : string) : exc string :=
  a ← node_attrib n; lookup_key k a.

(** [for c in n]: comments and processing instructions have no children. *)
Definition node_children (n : node) : list node :=
  match n with
  | NElement _ _ kids => kids
  | _ => []
  end.

(** [n[0]] *)
Definition first_child (n : node) : exc node :=
  match node_children n with
  | c :: _ => Ok c
  | [] => Raise IndexError
  end.

(** ** Building elements, with lxml's input checks *)

(** lxml's [_utf8]: a string with a C0 control character other than tab,
    line feed and carriage return is not XML compatible. *)
Definition xml_char (c : ascii) : bool :=
  let n := nat_of_ascii c in (n =? 9) || (n =? 10) || (n =? 13) || (32 <=? n).

Fixpoint xml_compatible (s : string) : bool :=
  match s with
  | EmptyString => true
  | String c s' => xml_char c && xml_compatible s'
  end.

(** [xmlValidateNameValue] on ASCII text, with lxml's extra refusal of
    [':'] ([_pyXmlNameIsValid]). *)
Definition name_start_char (c : ascii) : bool :=
  is_upper_char c || is_lower_char c || bool_decide (c = "_"%char).

Definition name_char (c : ascii) : bool :=
  name_start_char c || is_digit_char c || bool_decide (c = "."%char) || bool_decide (c = "-"%char).

Fixpoint name_rest (s : string) : bool :=
  match s with
  | EmptyString => true
  | String c s' => name_char c && name_rest s'
  end.

Definition valid_name (s : string) : bool :=
  match s with
  | EmptyString => false
  | String c s' => name_start_char c && name_rest s'
  end.

(** Split [s] at its first ['}']. *)
Fixpoint split_brace (s : string) : option (string * string) :=
  match s with
  | EmptyString => None
  | String c s' =>
    if bool_decide (c = "}"%char) then Some (EmptyString, s')
    else '(a, b) ← split_brace s'; Some (String c a, b)
  end.

(** lxml's [_getNsTag]: the namespace (if any) and the local name of a
    tag written [{uri}local] or [local]. *)
Definition get_ns_tag (tag : string) : exc (option string * string) :=
  if negb (xml_compatible tag) then Raise (ValueError VNotXmlCompatible) else
  match tag with
  | EmptyString => Raise (ValueError VEmptyTag)
  | String c rest =>
    if bool_decide (c = "{"%char) then
      match split_brace rest with
      | None => Raise (ValueError VInvalidTag)
      | Some (_, EmptyString) => Raise (ValueError VEmptyTag)
      | Some (EmptyString, local) => Ok (None, local)
      | Some (ns, local) => Ok (Some ns, local)
      end
    else Ok (None, tag)
  end.

(** The string [.tag] gives back for a namespace and a local name. *)
Definition ns_tag_string (ns : option string) (local : string) : string :=
  match ns with
  | None => local
  | Some u => String "{" (u ++ String "}" local)
  end.

(** [etree.Element(tag)]: [_getNsTag], then [_tagValidOrRaise] on the
    local name.  (The namespace URI check [_uriValidOrRaise], a call to
    libxml2's URI parser, is not modelled: every URI is accepted.) *)
Definition make_element (tag : string) : exc node :=
  '(ns, local) ← get_ns_tag tag;
  if valid_name local then Ok (NElement (ns_tag_string ns local) [] [])
  else Raise (ValueError VInvalidTag).

(** [n.attrib[k] = v] on an element: the value must be XML compatible
    ([_utf8]); then the attribute is replaced in place or appended.  The
    program only sets attributes of elements it has just created, with
    literal keys, so the key check of lxml is not modelled. *)
Definition set_attr (n : node) (k v : string) : exc node :=
  if negb (xml_compatible v) then Raise (ValueError VNotXmlCompatible) else
  match n with
  | NElement t a kids => Ok (NElement t (assoc_set k v a) kids)
  | _ => Ok n
  end.

(** [parent.append(child)] for an element: the child becomes the last one. *)
Definition append (parent child : node) : node :=
  match parent with
  | NElement t a kids => NElement t a (kids ++ [child])
  | _ => parent
  end.

(** The tags [etree.Element] keeps unchanged; every element tag of a
    parsed document is one. *)
Definition tag_ok (t : string) : bool :=
  bool_decide (make_element t = Ok (NElement t [] [])).

(** ** Trees that [etree.parse] returns

    Every tag is one lxml's constructor keeps, and every attribute value
    and text is made of XML characters (XML 1.0 admits no other). *)
Fixpoint wf_node (n : node) : bool :=
  match n with
  | NElement t a kids =>
      tag_ok t && forallb (fun kv => xml_compatible kv.2) a && forallb wf_node kids
  | NComment s => xml_compatible s
  | NPI _ text => match text with Some s => xml_compatible s | None => true end
  end.

(** Case on every attribute lookup of the goal. *)
Ltac case_lookups :=
  unfold lookup_key; simpl;
  repeat match goal with
  | |- context [assoc_get ?k ?a] =>
      let E := fresh "E" in destruct (assoc_get k a) eqn:E; simpl
  end.

(** ** Lemmas *)

Lemma name_char_xml c : name_char c = true -> xml_char c = true.
Proof. destruct c as [[] [] [] [] [] [] [] []]; (reflexivity || discriminate). Qed.

Lemma name_start_char_xml c : name_start_char c = true -> xml_char c = true.
Proof. destruct c as [[] [] [] [] [] [] [] []]; (reflexivity || discriminate). Qed.

Lemma name_rest_xml s : name_rest s = true -> xml_compatible s = true.
Proof.
  induction s as [|c s IH]; simpl; [done|].
  intros [Hc Hs]%andb_true_iff. by rewrite name_char_xml, IH.
Qed.

Lemma valid_name_xml s : valid_name s = true -> xml_compatible s = true.
Proof.
  destruct s as [|c s]; simpl; [done|].
  intros [Hc Hs]%andb_true_iff. by rewrite name_start_char_xml, name_rest_xml.
Qed.

(** A valid plain name is taken as it is by [etree.Element]. *)
Lemma make_element_plain t :
  valid_name t = true -> make_element t = Ok (NElement t [] []).
Proof.
  intros Hv. unfold make_element, get_ns_tag.
  rewrite valid_name_xml by done. simpl.
  destruct t as [|c t]; [discriminate|].
  rewrite bool_decide_false; [simpl in Hv |- *; by rewrite Hv|].
  intros ->. discriminate.
Qed.

(** Whatever [etree.Element] builds is an element with no attribute and
    no child. *)
Lemma make_element_shape t e :
  make_element t = Ok e -> exists t', e = NElement t' [] [].
Proof.
  unfold make_element. intros H. exc_inv.
  destruct x as [ns local]. destruct (valid_name local); exc_inv; eauto.
Qed.

Lemma get_ns_tag_raise t e :
  get_ns_tag t = Raise e -> exists v, e = ValueError v.
Proof. unfold get_ns_tag. intros H. repeat case_match; simplify_eq; eauto. Qed.

Lemma make_element_raise t e :
  make_element t = Raise e -> exists v, e = ValueError v.
Proof.
  unfold make_element. destruct (get_ns_tag t) as [[ns l]|e'] eqn:E; simpl.
  - destruct (valid_name l); intros [= <-]; eauto.
  - intros [= <-]. by eapply get_ns_tag_raise.
Qed.

Lemma set_attr_element t a kids k v :
  xml_compatible v = true ->
  set_attr (NElement t a kids) k v = Ok (NElement t (assoc_set k v a) kids).
Proof. intros H. unfold set_attr. by rewrite H. Qed.

Lemma set_attr_incompatible n k v :
  xml_compatible v = false -> set_attr n k v = Raise (ValueError VNotXmlCompatible).
Proof. intros H. unfold set_attr. by rewrite H. Qed.

Lemma attrib_get_element t a kids k :
  attrib_get (NElement t a kids) k = lookup_key k a.
Proof. reflexivity. Qed.

#[export] Hint Rewrite set_attr_element using assumption : pyrw.
#[export] Hint Rewrite attrib_get_element : pyrw.

(** ** Case mappings and lxml's checks

    A character mapping that fixes the braces and keeps each character in
    its class (XML character, name-start character, name character)
    commutes with [etree.Element]'s checks.  Python's case mappings are
    such mappings, so a tag that lxml accepts is still accepted after
    [.lower()] and [.upper()]. *)

Section CaseMap.
Variable f : ascii -> ascii.
Hypothesis f_open : forall c, bool_decide (f c = "{"%char) = bool_decide (c = "{"%char).
Hypothesis f_close : forall c, bool_decide (f c = "}"%char) = bool_decide (c = "}"%char).
Hypothesis f_xml : forall c, xml_char (f c) = xml_char c.
Hypothesis f_start : forall c, name_start_char (f c) = name_start_char c.
Hypothesis f_name : forall c, name_char (f c) = name_char c.

Lemma xml_compatible_map s : xml_compatible (str_map f s) = xml_compatible s.
Proof. induction s; simpl; [done|]. by rewrite f_xml, IHs. Qed.

Lemma valid_name_map s : valid_name (str_map f s) = valid_name s.
Proof.
  destruct s as [|c s]; simpl; [done|]. rewrite f_start. f_equal.
  induction s; simpl; [done|]. by rewrite f_name, IHs.
Qed.

Lemma split_brace_map s :
  split_brace (str_map f s)
  = (fun '(a, b) => (str_map f a, str_map f b)) <$> split_brace s.
Proof.
  induction s as [|c s IH]; simpl; [done|]. rewrite f_close.
  case_bool_decide; [done|]. rewrite IH. by destruct (split_brace s) as [[]|].
Qed.

Lemma str_map_nil s : str_map f s = EmptyString <-> s = EmptyString.
Proof. destruct s; simpl; split; congruence. Qed.

Lemma get_ns_tag_map t :
  get_ns_tag (str_map f t)
  = match get_ns_tag t with
    | Ok (ns, l) => Ok (option_map (str_map f) ns, str_map f l)
    | Raise e => Raise e
    end.
Proof.
  unfold get_ns_tag. rewrite xml_compatible_map.
  destruct (xml_compatible t); simpl; [|done].
  destruct t as [|c t]; simpl; [done|]. rewrite f_open.
  case_bool_decide; [|done]. rewrite split_brace_map.
  destruct (split_brace t) as [[ns l]|]; simpl; [|done].
  destruct l, ns; done.
Qed.

Lemma f_fixes_braces : f "{"%char = "{"%char /\ f "}"%char = "}"%char.
Proof.
  pose proof (f_open "{"%char) as Ho. pose proof (f_close "}"%char) as Hc.
  rewrite (bool_decide_eq_true_2 ("{"%char = "{"%char)) in Ho by done.
  rewrite (bool_decide_eq_true_2 ("}"%char = "}"%char)) in Hc by done.
  split; by eapply bool_decide_eq_true_1.
Qed.

Lemma ns_tag_string_map ns l :
  ns_tag_string (option_map (str_map f) ns) (str_map f l) = str_map f (ns_tag_string ns l).
Proof.
  destruct f_fixes_braces as [Ho Hc].
  destruct ns as [u|]; simpl; [|done].
  rewrite str_map_app. simpl. by rewrite Ho, Hc.
Qed.

(** A tag that [etree.Element] keeps as it is stays so after the mapping. *)
Lemma make_element_map t :
  make_element t = Ok (NElement t [] []) ->
  make_element (str_map f t) = Ok (NElement (str_map f t) [] []).
Proof.
  unfold make_element. rewrite get_ns_tag_map.
  destruct (get_ns_tag t) as [[ns l]|e]; simpl; [|discriminate].
  rewrite valid_name_map. destruct (valid_name l); [|discriminate].
  intros [= Ht]. by rewrite ns_tag_string_map, Ht.
Qed.
End CaseMap.

Lemma tag_ok_upper_lower t :
  tag_ok t = true -> tag_ok (str_upper (str_lower t)) = true.
Proof.
  unfold tag_ok, str_upper, str_lower. rewrite str_map_map.
  intros H%bool_decide_eq_true_1. apply bool_decide_eq_true_2.
  apply make_element_map; [intros c; by_all_chars c ..|done].
Qed.

Lemma xml_compatible_app s1 s2 :
  xml_compatible (s1 ++ s2) = xml_compatible s1 && xml_compatible s2.
Proof. induction s1; simpl; [done|]. by rewrite IHs1, andb_assoc. Qed.

Lemma xml_compatible_cons c s :
  xml_compatible (String c s) = xml_char c && xml_compatible s.
Proof. reflexivity. Qed.

Lemma span_compat p s a b :
  xml_compatible s = true -> span p s = (a, b) ->
  xml_compatible a = true /\ xml_compatible b = true.
Proof.
  revert a b; induction s as [|c s IH]; intros a b Hs; simpl; [by intros [= <- <-]|].
  rewrite xml_compatible_cons in Hs. apply andb_true_iff in Hs as [Hc Hs].
  destruct (p c); [|intros [= <- <-]; by rewrite xml_compatible_cons, Hc, Hs].
  destruct (span p s) as [a' b'] eqn:E. intros [= <- <-].
  destruct (IH a' b') as [Ha Hb]; [done..|]. by rewrite xml_compatible_cons, Hc, Ha, Hb.
Qed.

Lemma quoted_compat q s v r :
  xml_compatible s = true -> quoted q s = Some (v, r) ->
  xml_compatible v = true /\ xml_compatible r = true.
Proof.
  unfold quoted. destruct (span _ s) as [a b] eqn:E. intros Hs.
  destruct (span_compat _ _ _ _ Hs E) as [Ha Hb].
  destruct b as [|c b]; [discriminate|]. intros [= <- <-].
  rewrite xml_compatible_cons in Hb. apply andb_true_iff in Hb as [_ Hb]. done.
Qed.

Lemma snd_span_compat p s :
  xml_compatible s = true -> xml_compatible (snd (span p s)) = true.
Proof. destruct (span p s) eqn:E. intros H. apply (span_compat _ _ _ _ H E). Qed.

Lemma pi_match_compat s k v r :
  xml_compatible s = true -> pi_match s = Some (k, v, r) ->
  xml_compatible v = true /\ xml_compatible r = true.
Proof.
  unfold pi_match. intros Hs.
  destruct (span is_py_space s) as [w s1] eqn:E1.
  destruct (span_compat _ _ _ _ Hs E1) as [_ Hs1].
  destruct w; [discriminate|].
  destruct (span is_word_char s1) as [key s2] eqn:E2.
  destruct (span_compat _ _ _ _ Hs1 E2) as [_ Hs2].
  destruct key; [discriminate|].
  pose proof (snd_span_compat is_py_space _ Hs2) as Hs3.
  destruct (snd (span is_py_space s2)) as [|c s3]; [discriminate|].
  rewrite xml_compatible_cons in Hs3. apply andb_true_iff in Hs3 as [_ Hs3].
  destruct (bool_decide (c = "="%char)); [|discriminate].
  pose proof (snd_span_compat is_py_space _ Hs3) as Hs4.
  destruct (snd (span is_py_space s3)) as [|q s4]; [discriminate|].
  rewrite xml_compatible_cons in Hs4. apply andb_true_iff in Hs4 as [_ Hs4].
  destruct (_ || _); [|discriminate].
  destruct (quoted q s4) as [[v' r']|] eqn:Eq; simpl; [|discriminate].
  intros [= <- <- <-]. by eapply quoted_compat.
Qed.

Lemma pi_findall_compat fuel s :
  xml_compatible s = true -> Forall (fun kv => xml_compatible kv.2 = true) (pi_findall fuel s).
Proof.
  revert s; induction fuel as [|fuel IH]; intros s Hs; simpl; [done|].
  destruct (pi_match s) as [[[k v] r]|] eqn:E.
  - destruct (pi_match_compat s k v r Hs E). constructor; auto.
  - destruct s as [|c s]; [done|]. apply IH.
    rewrite xml_compatible_cons in Hs. by apply andb_true_iff in Hs as [_ ?].
Qed.

Lemma fold_assoc_set_Forall (P : string -> Prop) (l d : list (string * string)) :
  Forall (fun kv => P kv.2) l -> Forall (fun kv => P kv.2) d ->
  Forall (fun kv => P kv.2) (fold_left (fun d kv => assoc_set kv.1 kv.2 d) l d).
Proof.
  revert d; induction l as [|kv l IH]; intros d Hl Hd; simpl; [done|].
  inversion Hl; subst. apply IH; [done|]. by apply assoc_set_Forall.
Qed.

Lemma node_attrib_compat n a :
  wf_node n = true -> node_attrib n = Ok a ->
  Forall (fun kv => xml_compatible kv.2 = true) a.
Proof.
  destruct n as [t a' kids|s|tg [txt|]]; intros Hwf Ha; cbn [node_attrib wf_node] in Hwf, Ha.
  - injection Ha as <-. apply andb_true_iff in Hwf as [[_ H]%andb_true_iff _].
    apply Forall_forall. intros kv Hkv. rewrite forallb_forall in H. by apply H.
  - by injection Ha as <-.
  - unfold pi_pseudo_attrs in Ha.
    assert (Forall (fun kv => xml_compatible kv.2 = true)
              (pi_findall (String.length (String " " txt)) (String " " txt))) as Hl.
    { apply pi_findall_compat. by rewrite xml_compatible_cons, Hwf. }
    revert Ha Hl. generalize (pi_findall (String.length (String " " txt)) (String " " txt)).
    intros l [= <-] Hl.
    by apply (fold_assoc_set_Forall (fun v => xml_compatible v = true)).
  - discriminate.
Qed.

(** Every attribute value read from a parsed tree is accepted again by lxml. *)
Lemma attrib_get_compat n k v :
  wf_node n = true -> attrib_get n k = Ok v -> xml_compatible v = true.
Proof.
  unfold attrib_get, lookup_key. intros Hwf H. exc_inv.
  destruct (assoc_get k _) eqn:E; [|discriminate]. injection H as <-.
  eapply (assoc_get_Forall (fun v => xml_compatible v = true)); [|done].
  by eapply node_attrib_compat.
Qed.

Lemma wf_node_children n c : wf_node n = true -> c ∈ node_children n -> wf_node c = true.
Proof.
  destruct n as [t a kids| |]; simpl; [|by intros _ ?%elem_of_nil..].
  intros [_ H]%andb_true_iff Hc. rewrite forallb_forall in H.
  apply H. by apply list_elem_of_In.
Qed.

(** ** The fuel of [pi_findall] *)

Lemma span_length p s a b :
  span p s = (a, b) -> String.length a + String.length b = String.length s.
Proof.
  revert a b; induction s as [|c s IH]; intros a b; simpl; [by intros [= <- <-]|].
  destruct (p c); [|by intros [= <- <-]].
  destruct (span p s) as [a' b'] eqn:E. intros [= <- <-]. simpl. by rewrite (IH a' b').
Qed.

Lemma snd_span_length p s : String.length (snd (span p s)) <= String.length s.
Proof. destruct (span p s) eqn:E. apply span_length in E. simpl. lia. Qed.

Lemma quoted_length q s v r : quoted q s = Some (v, r) -> String.length r < String.length s.
Proof.
  unfold quoted. destruct (span _ s) as [a [|c b]] eqn:E; [discriminate|].
  intros [= <- <-]. apply span_length in E. simpl in E. lia.
Qed.

(** A match consumes at least one character. *)
Lemma pi_match_length s k v r : pi_match s = Some (k, v, r) -> String.length r < String.length s.
Proof.
  unfold pi_match.
  destruct (span is_py_space s) as [w s1] eqn:E1. apply span_length in E1.
  destruct w; [discriminate|].
  destruct (span is_word_char s1) as [key s2] eqn:E2. apply span_length in E2.
  destruct key; [discriminate|].
  pose proof (snd_span_length is_py_space s2) as L3.
  destruct (snd (span is_py_space s2)) as [|e s3]; [discriminate|].
  destruct (bool_decide (e = "="%char)); [|discriminate].
  pose proof (snd_span_length is_py_space s3) as L4.
  destruct (snd (span is_py_space s3)) as [|q s4]; [discriminate|].
  destruct (_ || _); [|discriminate].
  destruct (quoted q s4) as [[v' r']|] eqn:Eq; simpl; [|discriminate].
  intros [= <- <- <-]. apply quoted_length in Eq. simpl in *. lia.
Qed.


(** [String.length s] steps suffice: any larger fuel gives the same
    matches, so the fuel of [pi_pseudo_attrs] never cuts [re.findall] short. *)
Theorem pi_findall_fuel_adequate n m s :
  String.length s <= n -> String.length s <= m -> pi_findall n s = pi_findall m s.
Proof.
  revert m s; induction n as [|n IH]; intros m s Hn Hm.
  - destruct s; [|simpl in Hn; lia]. by destruct m.
  - destruct m as [|m]; [destruct s; [done|simpl in Hm; lia]|]. simpl.
    destruct (pi_match s) as [[[k v] r]|] eqn:E.
    + apply pi_match_length in E. f_equal. apply IH; lia.
    + destruct s as [|c s]; [done|]. simpl in Hn, Hm. apply IH; lia.
Qed.

(** ** Processing instructions written as attributes *)

Lemma span_app p a b :
  str_forall p a = true ->
  match b with EmptyString => True | String c _ => p c = false end ->
  span p (a ++ b) = (a, b).
Proof.
  induction a as [|c a IH]; simpl.
  - destruct b; simpl; [done|]. intros _ ->. done.
  - intros [-> Ha]%andb_true_iff Hb. by rewrite IH.
Qed.

Lemma word_char_not_space c : is_word_char c = true -> is_py_space c = false.
Proof. destruct c as [[] [] [] [] [] [] [] []]; (reflexivity || discriminate). Qed.

(** One [k='v'] after a space is one match of the pattern, for a key of
    word characters and a value without a single quote. *)
Lemma pi_match_kv k v rest :
  k <> EmptyString -> str_forall is_word_char k = true ->
  str_forall (fun c => negb (bool_decide (c = squote))) v = true ->
  pi_match (String " " (kv_text k v rest)) = Some (k, v, rest).
Proof.
  intros Hk Hw Hv. destruct k as [|c k']; [done|].
  simpl in Hw. apply andb_true_iff in Hw as [Hc Hw].
  unfold pi_match, kv_text. simpl. rewrite (word_char_not_space c Hc). simpl.
  rewrite Hc, (span_app is_word_char k') by done. simpl.
  unfold quoted. by rewrite (span_app _ v (String squote rest)).
Qed.

Lemma pi_findall_nil n : pi_findall n EmptyString = [].
Proof. by destruct n. Qed.

Lemma pi_findall_match n s k v rest :
  pi_match s = Some (k, v, rest) -> pi_findall (S n) s = (k, v) :: pi_findall n rest.
Proof. intros H. simpl. by rewrite H. Qed.

Lemma pi_findall_fuel_adequate_witness :
  String.length " a='1'" <= 6 /\ String.length " a='1'" <= 10
  /\ pi_findall 6 " a='1'" = pi_findall 10 " a='1'".
Proof.
  split; [simpl; lia|]. split; [simpl; lia|].
  apply pi_findall_fuel_adequate; simpl; lia.
Defined.
