(* ===== verification/Codec.v ===== *)
(** The interface between the levels of the document: what [BuildRule]
    promises to [BuildGroup], and [BuildGroup] to [BuildRuleFile].

    Each level has a [parse] classmethod from an lxml node and a
    [to_element] method returning [(ok, element)].  The two loops the
    program writes twice ([BuildGroup.parse]/[BuildRuleFile.parse] over
    children, [BuildGroup.to_element]/[BuildRuleFile.to_element] over
    items) are defined once here, and their theorems are proved against
    the interface. *)

From Stdlib Require Import Ascii String.
From stdpp Require Import base list strings decidable.
From S2P Require Import Prelude PyStr Xml.

Class Codec (A : Type) := {
  codec_parse : node -> exc A;
  codec_to_element : A -> exc (bool * option node);
  (** the values whose strings lxml accepts *)
  codec_encodable : A -> bool;
}.

(** What a level promises to the level above it: an encodable value is
    written as an element that parses back to it; any other value makes
    lxml raise [ValueError]; the [False] flag is never returned. *)
Class CodecLaws (A : Type) `{Codec A} := {
  codec_encode_ok a :
    codec_encodable a = true ->
    exists e, codec_to_element a = Ok (true, Some e) /\ codec_parse e = Ok a;
  codec_encode_err a :
    codec_encodable a = false ->
    exists v, codec_to_element a = Raise (ValueError v);
  codec_parse_encodable n a :
    wf_node n = true -> codec_parse n = Ok a -> codec_encodable a = true;
}.

(** [xs = []; for c in children: xs.append(parse(c))] *)
Fixpoint parse_loop {A} (parse : node -> exc A) (acc : list A) (kids : list node)
    : exc (list A) :=
  match kids with
  | [] => Ok acc
  | k :: ks => x ← parse k; parse_loop parse (acc ++ [x]) ks
  end.

(** [for x in items: ret, x_ele = x.to_element(); if not ret: return
    False, None; parent.append(x_ele)]: [Some parent] when the loop runs
    to its end, [None] when it returns early.  [parent.append(None)]
    raises [TypeError]. *)
Fixpoint append_loop {A} (to_element : A -> exc (bool * option node)) (parent : node)
    (items : list A) : exc (option node) :=
  match items with
  | [] => Ok (Some parent)
  | x :: xs =>
    '(ret, x_ele) ← to_element x;
    if negb ret then Ok None else
    match x_ele with
    | None => Raise TypeError
    | Some e => append_loop to_element (append parent e) xs
    end
  end.

(** Every item can be written. *)
Definition all_encodable {A} `{Codec A} (xs : list A) : bool := forallb codec_encodable xs.

Section Loops.
Context {A : Type}.

Lemma parse_loop_traverse (parse : node -> exc A) acc kids :
  parse_loop parse acc kids = (fun xs => acc ++ xs) <$> traverse parse kids.
Proof.
  revert acc; induction kids as [|k ks IH]; intros acc; simpl.
  - by rewrite app_nil_r.
  - destruct (parse k) as [x|e]; simpl; [|done].
    rewrite IH. destruct (traverse parse ks); simpl; [|done].
    by rewrite <- app_assoc.
Qed.

(** Order preservation: when each item is written as [f x], the loop
    appends [f x1], ..., [f xn] in the order of the items. *)
Lemma append_loop_map (to_element : A -> exc (bool * option node)) (f : A -> node)
    t a kids (xs : list A) :
  Forall (fun x => to_element x = Ok (true, Some (f x))) xs ->
  append_loop to_element (NElement t a kids) xs = Ok (Some (NElement t a (kids ++ map f xs))).
Proof.
  revert kids; induction xs as [|x xs IH]; intros kids Hall; simpl.
  - by rewrite app_nil_r.
  - apply Forall_cons_iff in Hall as [Hx Hxs]. rewrite Hx. simpl.
    rewrite IH by done. by rewrite <- app_assoc.
Qed.

Context `{Codec A} `{!CodecLaws A}.

Lemma append_loop_ok t a kids (xs : list A) :
  all_encodable xs = true ->
  exists es, append_loop codec_to_element (NElement t a kids) xs
               = Ok (Some (NElement t a (kids ++ es)))
          /\ traverse codec_parse es = Ok xs.
Proof.
  revert kids; induction xs as [|x xs IH]; intros kids Hall; simpl.
  - exists []. by rewrite app_nil_r.
  - apply andb_true_iff in Hall as [Hx Hxs].
    destruct (codec_encode_ok x Hx) as (e & -> & Hp). simpl.
    destruct (IH (kids ++ [e]) Hxs) as (es & -> & Hes).
    exists (e :: es). rewrite <- app_assoc. simpl. rewrite Hp, Hes. done.
Qed.

Lemma append_loop_err parent (xs : list A) :
  all_encodable xs = false ->
  exists v, append_loop codec_to_element parent xs = Raise (ValueError v).
Proof.
  revert parent; induction xs as [|x xs IH]; intros parent Hall; simpl; [done|].
  unfold all_encodable in *; simpl in Hall.
  destruct (codec_encodable x) eqn:Hx; simpl in Hall.
  - destruct (codec_encode_ok x Hx) as (e & -> & _). simpl. by apply IH.
  - destruct (codec_encode_err x Hx) as (v & ->). eauto.
Qed.

(** When every encodable item is written as [f x], so is every item
    of an encodable list. *)
Lemma all_to_element (f : A -> node) (xs : list A) :
  (forall x, codec_encodable x = true -> codec_to_element x = Ok (true, Some (f x))) ->
  all_encodable xs = true ->
  Forall (fun x => codec_to_element x = Ok (true, Some (f x))) xs.
Proof.
  intros Hf Hall. apply Forall_forall. intros x Hx. apply Hf.
  unfold all_encodable in Hall. rewrite forallb_forall in Hall.
  apply Hall. first [done | by apply list_elem_of_In].
Qed.

(** What is parsed from a well-formed tree can be written again. *)
Lemma traverse_encodable kids (xs : list A) :
  Forall (fun c => wf_node c = true) kids ->
  traverse codec_parse kids = Ok xs -> all_encodable xs = true.
Proof.
  intros Hwf Ht%traverse_Ok_iff. unfold all_encodable.
  induction Ht as [|c x kids' xs' Hp _ IH]; simpl; [done|].
  inversion Hwf; subst. rewrite (codec_parse_encodable c x); auto.
Qed.
End Loops.
