(* ===== verification/Rule.v ===== *)
(** [class BuildRule(NamedTuple)] of [src/build_rule.py], lines 9-32: a
    build rule with four string fields, its [parse] classmethod reading
    them from the attributes of an lxml node and its [to_element] method
    writing them back to a fresh [<rule>] element. *)

From Stdlib Require Import Ascii String.
From stdpp Require Import base list strings decidable.
From S2P Require Import Prelude PyStr Xml Codec.

Open Scope string_scope.

Module BuildRule.

Record t := mk {
  productname : string;
  added_contition : string;
  addname : string;
  target : string;
}.

#[global] Instance eq_dec : EqDecision t.
Proof. solve_decision. Defined.

(** [BuildRule.parse(rule_ele)]: four lookups in the order of the code. *)
Definition parse (rule_ele : node) : exc t :=
  productname ← attrib_get rule_ele "productname";
  added_contition ← attrib_get rule_ele "added_contition";
  addname ← attrib_get rule_ele "addname";
  target ← attrib_get rule_ele "target";
  mret (mk productname added_contition addname target).

(** [BuildRule.to_element(self)] *)
Definition to_element (self : t) : exc (bool * option node) :=
  rule_ele ← make_element "rule";
  rule_ele ← set_attr rule_ele "productname" (productname self);
  rule_ele ← set_attr rule_ele "added_contition" (added_contition self);
  rule_ele ← set_attr rule_ele "addname" (addname self);
  rule_ele ← set_attr rule_ele "target" (target self);
  mret (true, Some rule_ele).

(** The wire names, in the order [parse] reads them. *)
Definition keys : list string := ["productname"; "added_contition"; "addname"; "target"].

(** lxml accepts the four values. *)
Definition encodable (r : t) : bool :=
  xml_compatible (productname r) && xml_compatible (added_contition r)
  && xml_compatible (addname r) && xml_compatible (target r).

(** The attributes of the element [to_element] builds, in order. *)
Definition attrs (r : t) : list (string * string) :=
  [("productname", productname r); ("added_contition", added_contition r);
   ("addname", addname r); ("target", target r)].

(** The element [to_element] writes for an encodable rule. *)
Definition element (r : t) : node := NElement "rule" (attrs r) [].

(** The rule of the spec's example, and a node lacking two attributes. *)
Definition example : t := mk "p1" "c1" "a1" "t1".
Definition example_partial : node :=
  NElement "rule" [("productname", "p1"); ("target", "t1")] [].

(** A processing instruction whose text holds the four pseudo-attributes. *)
Definition example_pi : node :=
  NPI "br" (Some "productname='p1' added_contition='c1' addname='a1' target='t1'").

(** The text of a processing instruction that gives the four fields as
    pseudo-attributes [k='v'], in the order of [keys]. *)
Definition pi_text (r : t) : string :=
  kv_text "productname" (productname r) (String " "
  (kv_text "added_contition" (added_contition r) (String " "
  (kv_text "addname" (addname r) (String " "
  (kv_text "target" (target r) "")))))).

(** No field holds a single quote, which would end its quoted value. *)
Definition quote_free (r : t) : bool :=
  forallb (str_forall (fun c => negb (bool_decide (c = squote))))
    [productname r; added_contition r; addname r; target r].

#[global] Instance codec : Codec t :=
  {| codec_parse := parse; codec_to_element := to_element; codec_encodable := encodable |}.

(** *** Serialisation *)

(** C-level: an encodable rule becomes [<rule>] with its four
    attributes in the order the code sets them. *)
Lemma rule_to_element_ok r :
  encodable r = true -> to_element r = Ok (true, Some (element r)).
Proof.
  unfold encodable. intros H. repeat apply andb_true_iff in H as [H ?].
  unfold to_element. rewrite make_element_plain by reflexivity. simpl.
  autorewrite with pyrw. reflexivity.
Qed.

Lemma rule_to_element_err r :
  encodable r = false -> to_element r = Raise (ValueError VNotXmlCompatible).
Proof.
  unfold encodable, to_element. intros H.
  rewrite make_element_plain by reflexivity. simpl.
  destruct (xml_compatible (productname r)) eqn:H1;
    [|by rewrite set_attr_incompatible]; autorewrite with pyrw; simpl.
  destruct (xml_compatible (added_contition r)) eqn:H2;
    [|by rewrite set_attr_incompatible]; autorewrite with pyrw; simpl.
  destruct (xml_compatible (addname r)) eqn:H3;
    [|by rewrite set_attr_incompatible]; autorewrite with pyrw; simpl.
  rewrite set_attr_incompatible; [done|].
  by destruct (xml_compatible (target r)).
Qed.

(** *** Parsing *)

(** The four lookups, given the attribute list of the node. *)
Lemma rule_parse_attrib n a :
  node_attrib n = Ok a ->
  parse n = (p ← lookup_key "productname" a; c ← lookup_key "added_contition" a;
             an ← lookup_key "addname" a; tg ← lookup_key "target" a;
             mret (mk p c an tg)).
Proof. intros Ha. unfold parse, attrib_get. by rewrite Ha. Qed.

(** C5: Missing-attribute rejection: the [KeyError] names the first of the
    four wire names, in the order of the code, that the node lacks. *)
Lemma rule_parse_missing n a k :
  node_attrib n = Ok a -> first_missing keys a = Some k -> parse n = Raise (KeyError k).
Proof.
  intros Ha Hk. rewrite (rule_parse_attrib n a Ha). unfold keys in Hk. simpl in Hk.
  case_lookups; congruence.
Qed.

(** C14: Attribute fidelity: [parse] succeeds with [r] exactly when each of
    the four wire names maps to the field of [r]. *)
Lemma rule_parse_ok_iff n a r :
  node_attrib n = Ok a ->
  parse n = Ok r <-> Forall (fun kv => assoc_get kv.1 a = Some kv.2) (attrs r).
Proof.
  intros Ha. rewrite (rule_parse_attrib n a Ha).
  destruct r as [p c an tg]. unfold attrs. rewrite !Forall_cons_iff. simpl.
  case_lookups; split; intros; destruct_and?; simplify_eq;
    unfold mret, exc_ret in *; simplify_eq; repeat split; try done; congruence.
Qed.

Lemma rule_parse_element r : parse (element r) = Ok r.
Proof. by destruct r. Qed.

(** C17: Round trip of one rule: what [to_element] writes, [parse] reads
    back field for field. *)
Lemma rule_roundtrip r :
  encodable r = true ->
  exists e, to_element r = Ok (true, Some e) /\ parse e = Ok r.
Proof. intros H. exists (element r). by rewrite rule_to_element_ok, rule_parse_element. Qed.

(** A rule read from a parsed tree can be written back. *)
Lemma rule_parse_encodable n r : wf_node n = true -> parse n = Ok r -> encodable r = true.
Proof.
  intros Hwf H. unfold parse in H. exc_inv. unfold encodable. simpl.
  repeat erewrite attrib_get_compat by eassumption. done.
Qed.

#[global] Instance codec_laws : CodecLaws t.
Proof.
  split.
  - intros r H. exists (element r). by rewrite rule_to_element_ok, rule_parse_element.
  - intros a H. exists VNotXmlCompatible. by apply rule_to_element_err.
  - apply rule_parse_encodable.
Qed.

(** *** Children that are not elements *)

Ltac pi_step := erewrite pi_findall_match by (apply pi_match_kv; [discriminate|reflexivity|assumption]).

(** C25: A processing instruction is read as a rule: [.attrib] of a
    processing instruction is the dict of its pseudo-attributes, and
    [parse] does not check that the node is an element, so any
    processing instruction, whatever its target, whose text gives the
    four fields as [k='v'] is accepted as that rule. *)
Theorem rule_parse_pi target_name r :
  quote_free r = true -> parse (NPI target_name (Some (pi_text r))) = Ok r.
Proof.
  unfold quote_free. simpl. rewrite !andb_true_iff. intros (Hp & Hc & Ha & Ht & _).
  set (s := String " " (pi_text r)).
  assert (pi_findall (String.length s) s
          = [("productname", productname r); ("added_contition", added_contition r);
             ("addname", addname r); ("target", target r)]) as Hf.
  { assert (exists n, String.length s = S (S (S (S n)))) as [n ->] by (eexists; reflexivity).
    unfold s, pi_text. do 4 pi_step. by rewrite pi_findall_nil. }
  unfold parse, attrib_get, node_attrib, pi_pseudo_attrs. fold s. rewrite Hf.
  by destruct r.
Qed.

(** *** Witnesses *)

Lemma rule_parse_pi_witness :
  quote_free example = true /\ pi_text example = "productname='p1' added_contition='c1' addname='a1' target='t1'"
  /\ parse (NPI "br" (Some (pi_text example))) = Ok example.
Proof.
  split; [reflexivity|]. split; [reflexivity|]. by apply rule_parse_pi.
Defined.

Lemma rule_parse_missing_witness :
  node_attrib example_partial = Ok [("productname", "p1"); ("target", "t1")]
  /\ first_missing keys [("productname", "p1"); ("target", "t1")] = Some "added_contition"
  /\ parse example_partial = Raise (KeyError "added_contition").
Proof.
  split; [reflexivity|]. split; [reflexivity|].
  apply (rule_parse_missing _ [("productname", "p1"); ("target", "t1")]); reflexivity.
Defined.

Lemma rule_parse_ok_iff_witness :
  node_attrib (element example) = Ok (attrs example)
  /\ (parse (element example) = Ok example
      <-> Forall (fun kv => assoc_get kv.1 (attrs example) = Some kv.2) (attrs example)).
Proof. split; [reflexivity|]. apply (rule_parse_ok_iff (element example) (attrs example)). reflexivity. Defined.

Lemma rule_roundtrip_witness :
  encodable example = true
  /\ exists e, to_element example = Ok (true, Some e) /\ parse e = Ok example.
Proof. split; [reflexivity|]. apply (rule_roundtrip example). reflexivity. Defined.

End BuildRule.
