(* ===== verification/Group.v ===== *)
(** [class BuildGroup(NamedTuple)] of [src/build_rule.py], lines 35-67: a
    named, weighted group owning an ordered list of [BuildRule]s, its
    [parse] classmethod (three attributes, then every child node parsed
    as a rule, in document order) and its [to_element] method (a
    [<buildgroup>] element with the rules appended in order, aborting
    with [(False, None)] if a rule reports failure). *)

From Stdlib Require Import Ascii String.
From stdpp Require Import base list strings decidable.
From S2P Require Import Prelude PyStr Xml Codec Rule.

Open Scope string_scope.

Module BuildGroup.

Record t := mk {
  name : string;
  weight : string;
  producttype : string;
  rules : list BuildRule.t;
}.

#[global] Instance eq_dec : EqDecision t.
Proof. solve_decision. Defined.

(** [BuildGroup.parse(buildgroup_ele)] *)
Definition parse (buildgroup_ele : node) : exc t :=
  name ← attrib_get buildgroup_ele "name";
  weight ← attrib_get buildgroup_ele "weight";
  producttype ← attrib_get buildgroup_ele "producttype";
  rules ← parse_loop BuildRule.parse [] (node_children buildgroup_ele);
  mret (mk name weight producttype rules).

(** [BuildGroup.to_element(self)] *)
Definition to_element (self : t) : exc (bool * option node) :=
  buildgroup_ele ← make_element "buildgroup";
  buildgroup_ele ← set_attr buildgroup_ele "name" (name self);
  buildgroup_ele ← set_attr buildgroup_ele "weight" (weight self);
  buildgroup_ele ← set_attr buildgroup_ele "producttype" (producttype self);
  r ← append_loop BuildRule.to_element buildgroup_ele (rules self);
  match r with
  | None => mret (false, None)
  | Some buildgroup_ele => mret (true, Some buildgroup_ele)
  end.

(** The wire names of the scalar attributes, in the order [parse] reads them. *)
Definition keys : list string := ["name"; "weight"; "producttype"].

Definition attrs (g : t) : list (string * string) :=
  [("name", name g); ("weight", weight g); ("producttype", producttype g)].

Definition encodable (g : t) : bool :=
  xml_compatible (name g) && xml_compatible (weight g) && xml_compatible (producttype g)
  && all_encodable (rules g).

(** The element [to_element] writes for an encodable group. *)
Definition element (g : t) : node :=
  NElement "buildgroup" (attrs g) (map BuildRule.element (rules g)).

(** The group of the spec's example, and a group element with a
    comment between two rules. *)
Definition example : t := mk "g1" "10" "app" [BuildRule.example].
Definition example_commented : node :=
  NElement "buildgroup" (attrs example)
    [BuildRule.element BuildRule.example; NComment " disabled "; BuildRule.element BuildRule.example].

#[global] Instance codec : Codec t :=
  {| codec_parse := parse; codec_to_element := to_element; codec_encodable := encodable |}.

(** *** Serialisation *)

(** An encodable group is written as [<buildgroup>] with its three
    attributes and one [<rule>] child per rule, in the order of [rules]. *)
Lemma group_to_element_ok g :
  encodable g = true -> to_element g = Ok (true, Some (element g)).
Proof.
  unfold encodable. intros H. repeat apply andb_true_iff in H as [H ?].
  unfold to_element. rewrite make_element_plain by reflexivity. simpl.
  autorewrite with pyrw. simpl.
  rewrite (append_loop_map _ BuildRule.element) by (refine (all_to_element (A:=BuildRule.t) BuildRule.element _ BuildRule.rule_to_element_ok _); done).
  reflexivity.
Qed.

Lemma group_to_element_err g :
  encodable g = false -> exists v, to_element g = Raise (ValueError v).
Proof.
  unfold encodable, to_element. intros H.
  rewrite make_element_plain by reflexivity. simpl.
  destruct (xml_compatible (name g)) eqn:H1;
    [|rewrite set_attr_incompatible by done; eauto]; autorewrite with pyrw; simpl.
  destruct (xml_compatible (weight g)) eqn:H2;
    [|rewrite set_attr_incompatible by done; eauto]; autorewrite with pyrw; simpl.
  destruct (xml_compatible (producttype g)) eqn:H3;
    [|rewrite set_attr_incompatible by done; eauto]; autorewrite with pyrw; simpl.
  destruct (append_loop_err (A:=BuildRule.t) (NElement "buildgroup" (attrs g) []) (rules g))
    as (v & Hv); [done|].
  exists v. unfold attrs in Hv. simpl in Hv |- *. by rewrite Hv.
Qed.

(** *** Parsing *)

Lemma group_parse_attrib n a :
  node_attrib n = Ok a ->
  parse n = (nm ← lookup_key "name" a; w ← lookup_key "weight" a;
             pt ← lookup_key "producttype" a;
             rs ← parse_loop BuildRule.parse [] (node_children n);
             mret (mk nm w pt rs)).
Proof. intros Ha. unfold parse, attrib_get. by rewrite Ha. Qed.

(** C6: The scalar attributes are read before any child: a group lacking
    one raises [KeyError] for the first missing name, whatever its
    children are. *)
Lemma group_parse_missing n a k :
  node_attrib n = Ok a -> first_missing keys a = Some k -> parse n = Raise (KeyError k).
Proof.
  intros Ha Hk. rewrite (group_parse_attrib n a Ha). unfold keys in Hk. simpl in Hk.
  case_lookups; congruence.
Qed.

(** C15: [parse] succeeds with [g] exactly when the three attributes are
    those of [g] and the children parse, one by one and in order, to
    the rules of [g]. *)
Lemma group_parse_ok_iff n a g :
  node_attrib n = Ok a ->
  parse n = Ok g <->
    Forall (fun kv => assoc_get kv.1 a = Some kv.2) (attrs g)
    /\ Forall2 (fun c r => BuildRule.parse c = Ok r) (node_children n) (rules g).
Proof.
  intros Ha. rewrite (group_parse_attrib n a Ha), parse_loop_traverse, <- traverse_Ok_iff.
  destruct g as [nm w pt rs]. unfold attrs. rewrite !Forall_cons_iff. simpl.
  destruct (traverse BuildRule.parse (node_children n)) as [rs'|e];
    case_lookups; split; intros; destruct_and?; simplify_eq;
    unfold mret, exc_ret in *; simplify_eq; repeat split; try done; congruence.
Qed.

Lemma group_parse_element g : parse (element g) = Ok g.
Proof.
  unfold parse. simpl. rewrite parse_loop_traverse.
  rewrite traverse_map_inv by apply BuildRule.rule_parse_element. by destruct g.
Qed.

(** C18: A group whose values lxml accepts is written as an element that
    BuildGroup.parse reads back, rules in order. *)
Lemma group_roundtrip g :
  encodable g = true ->
  exists e, to_element g = Ok (true, Some e) /\ parse e = Ok g.
Proof. intros H. exists (element g). by rewrite group_to_element_ok, group_parse_element. Qed.

Lemma group_parse_encodable n g : wf_node n = true -> parse n = Ok g -> encodable g = true.
Proof.
  intros Hwf H. unfold parse in H. exc_inv. unfold encodable. simpl.
  repeat erewrite attrib_get_compat by eassumption. simpl.
  match goal with Hl : parse_loop _ _ _ = Ok _ |- _ =>
    rewrite parse_loop_traverse in Hl; destruct (traverse _ _) eqn:Ht; simpl in Hl; exc_inv end.
  eapply (traverse_encodable (A:=BuildRule.t)); [|exact Ht].
  apply Forall_forall. intros c Hc. eapply wf_node_children; [exact Hwf|].
  by apply list_elem_of_In.
Qed.

#[global] Instance codec_laws : CodecLaws t.
Proof.
  split; [|apply group_to_element_err | apply group_parse_encodable].
  intros g H. exists (element g). by rewrite group_to_element_ok, group_parse_element.
Qed.

(** C16: The first child that is not a rule aborts the parse with its
    exception, after the children before it parsed. *)
Lemma group_parse_child_error t0 a kids1 c kids2 rs e :
  first_missing keys a = None ->
  traverse BuildRule.parse kids1 = Ok rs -> BuildRule.parse c = Raise e ->
  parse (NElement t0 a (kids1 ++ c :: kids2)) = Raise e.
Proof.
  intros Hk Hs Hc. rewrite (group_parse_attrib _ a) by done.
  unfold keys in Hk. simpl in Hk. rewrite parse_loop_traverse.
  rewrite (traverse_app_Raise _ kids1 kids2 c e rs) by done.
  case_lookups; congruence.
Qed.

(** C7: Order preservation: whenever [to_element] reports success, the
    element holds the three attributes and one [<rule>] per rule, in
    the order of [rules]. *)
Theorem group_children_in_order g e :
  to_element g = Ok (true, Some e) ->
  e = NElement "buildgroup" (attrs g) (map BuildRule.element (rules g)).
Proof.
  destruct (encodable g) eqn:H.
  - rewrite group_to_element_ok by done. by intros [= <-].
  - destruct (group_to_element_err g H) as (v & ->). discriminate.
Qed.

(** *** Witnesses *)

Lemma group_children_in_order_witness :
  to_element example = Ok (true, Some (NElement "buildgroup" (attrs example) [BuildRule.element BuildRule.example]))
  /\ NElement "buildgroup" (attrs example) [BuildRule.element BuildRule.example]
     = NElement "buildgroup" (attrs example) (map BuildRule.element (rules example)).
Proof. split; [vm_compute; reflexivity|]. apply group_children_in_order. vm_compute. reflexivity. Defined.

Lemma group_parse_missing_witness :
  node_attrib (NElement "buildgroup" [("name", "g1")] [NComment ""]) = Ok [("name", "g1")]
  /\ first_missing keys [("name", "g1")] = Some "weight"
  /\ parse (NElement "buildgroup" [("name", "g1")] [NComment ""]) = Raise (KeyError "weight").
Proof.
  split; [reflexivity|]. split; [reflexivity|].
  apply (group_parse_missing _ [("name", "g1")]); reflexivity.
Defined.

Lemma group_parse_ok_iff_witness :
  node_attrib (element example) = Ok (attrs example)
  /\ (parse (element example) = Ok example
      <-> Forall (fun kv => assoc_get kv.1 (attrs example) = Some kv.2) (attrs example)
          /\ Forall2 (fun c r => BuildRule.parse c = Ok r)
               (node_children (element example)) (rules example)).
Proof. split; [reflexivity|]. apply (group_parse_ok_iff (element example) (attrs example)). reflexivity. Defined.

(** A comment between rules makes the whole group fail. *)
Lemma group_parse_child_error_witness :
  first_missing keys (attrs example) = None
  /\ traverse BuildRule.parse [BuildRule.element BuildRule.example] = Ok [BuildRule.example]
  /\ BuildRule.parse (NComment " disabled ") = Raise (KeyError "productname")
  /\ parse example_commented = Raise (KeyError "productname").
Proof.
  split; [reflexivity|]. split; [reflexivity|]. split; [reflexivity|].
  apply (group_parse_child_error "buildgroup" (attrs example) [BuildRule.element BuildRule.example]
           (NComment " disabled ") [BuildRule.element BuildRule.example] [BuildRule.example]);
    reflexivity.
Defined.

Lemma group_roundtrip_witness :
  encodable example = true
  /\ exists e, to_element example = Ok (true, Some e) /\ parse e = Ok example.
Proof. split; [reflexivity|]. apply (group_roundtrip example). reflexivity. Defined.

End BuildGroup.
