(* ===== verification/RuleFile.v ===== *)
(** [class BuildRuleFile(NamedTuple)] of [src/build_rule.py] (lines
    70-108), [main] (lines 111-114) and the module guard (lines 117-118):
    the document (a version tag and an ordered list of groups), its
    [parse] classmethod from a file path, its [to_element] method
    building [<BUILD_RULE><VERSION>...], its [write] method, and the
    script that reads [turing.xml], prints it and writes it back.  The
    file system is a [gmap] from paths to files; the outcome of the file
    operation of [tree.write] (success, failed open, failure after the
    truncation) is an input of [write], [main] and [script]. *)

From Stdlib Require Import Ascii String.
From stdpp Require Import base list strings decidable gmap.
From S2P Require Import Prelude PyStr Xml Codec Rule Group.

Open Scope string_scope.

(** The contents of a file as [etree.parse] sees it: an XML document
    (its root element, the XML text itself is abstracted) or anything
    that is not XML. *)
Inductive file := XmlFile (root : node) | OtherFile.

(** [etree.parse(filepath).getroot()] *)
Definition etree_parse (files : gmap string file) (filepath : string) : exc node :=
  match files !! filepath with
  | None => Raise OSError
  | Some OtherFile => Raise XMLSyntaxError
  | Some (XmlFile root) => Ok root
  end.

(** What the operating system does with the file [tree.write] writes:
    the write goes through; the [open] for writing fails (permission
    denied, missing directory) before the file is touched; or the write
    fails after the [open] truncated the file (disk full, a crash). *)
Inductive io_fault := IoOk | OpenFails | WriteFails.

(** [etree.ElementTree(root).write(filepath, pretty_print=True)]: lxml
    opens the file for writing, which truncates it, then writes the
    serialised tree.  A failure raises [OSError]; one after the [open]
    leaves a truncated file, which is not XML.  The file system is
    returned in every case. *)
Definition tree_write (io : io_fault) (files : gmap string file) (filepath : string)
    (root : node) : exc unit * gmap string file :=
  match io with
  | IoOk => (Ok tt, <[filepath := XmlFile root]> files)
  | OpenFails => (Raise OSError, files)
  | WriteFails => (Raise OSError, <[filepath := OtherFile]> files)
  end.

(** The files [etree.parse] can read hold well-formed trees. *)
Definition wf_files (files : gmap string file) : Prop :=
  map_Forall (fun _ f => match f with XmlFile r => wf_node r = true | OtherFile => True end) files.

Module BuildRuleFile.

Record t := mk {
  version : string;
  buildgroups : list BuildGroup.t;
}.

#[global] Instance eq_dec : EqDecision t.
Proof. solve_decision. Defined.

(** Lines 79-88 of [BuildRuleFile.parse], from the root element on. *)
Definition parse_root (root : node) : exc t :=
  version_ele ← first_child root;
  version ← tag_lower (node_tag version_ele);
  buildgroups ← parse_loop BuildGroup.parse [] (node_children version_ele);
  mret (mk version buildgroups).

(** [BuildRuleFile.parse(filepath)] *)
Definition parse (files : gmap string file) (filepath : string) : exc t :=
  root ← etree_parse files filepath;
  parse_root root.

(** [BuildRuleFile.to_element(self)].  [etree.SubElement(root_ele, tag)]
    links the new element under [root_ele] at once, and the loop then
    appends to it through the alias [version_ele]; since nothing else
    touches [root_ele], the root built here holds the final
    [version_ele] as its only child. *)
Definition to_element (self : t) : exc (bool * option node) :=
  root_ele ← make_element "BUILD_RULE";
  version_ele ← make_element (str_upper (version self));
  r ← append_loop BuildGroup.to_element version_ele (buildgroups self);
  match r with
  | None => mret (false, None)
  | Some version_ele => mret (true, Some (append root_ele version_ele))
  end.

(** [BuildRuleFile.write(self, filepath)], with the outcome [io] of the
    file operation: the result or exception, and the file system after
    it.  [ElementTree(None).write] fails lxml's root assertion before
    opening the file. *)
Definition write (io : io_fault) (self : t) (files : gmap string file) (filepath : string)
    : exc bool * gmap string file :=
  match to_element self with
  | Raise e => (Raise e, files)
  | Ok (ret, root_ele) =>
    if negb ret then (Ok false, files) else
    match root_ele with
    | None => (Raise AssertionError, files)
    | Some r =>
      let '(res, files') := tree_write io files filepath r in
      (_ ← res; mret true, files')
    end
  end.

(** *** The whole program *)

(** The file system and what [print] has shown ([print(brfile)] writes
    the [repr] of the document; the model records the document). *)
Record world := World {
  files : gmap string file;
  stdout : list t;
}.

Definition main_path : string := "turing.xml".

(** [main()], with the outcome [io] of its file write: the world after
    the run, and the exception that ended it, if any. *)
Definition main (io : io_fault) (w : world) : world * option pyexc :=
  match parse (files w) main_path with
  | Raise e => (w, Some e)
  | Ok brfile =>
    let w1 := World (files w) (stdout w ++ [brfile]) in
    let '(r, files') := write io brfile (files w1) main_path in
    (World files' (stdout w1), match r with Ok _ => None | Raise e => Some e end)
  end.



(** *** The spec's example *)

Definition example_root : node :=
  NElement "BUILD_RULE" []
    [NElement "V1" [] [BuildGroup.element BuildGroup.example]].

Definition example : t := mk "v1" [BuildGroup.example].

Definition example_world : world :=
  World {[ main_path := XmlFile example_root ]} [].

(** *** Derived notions *)

(** The tag [etree.SubElement] gives the version element. *)
Definition made_tag (tag : string) : string :=
  match make_element tag with
  | Ok (NElement t' _ _) => t'
  | _ => tag
  end.

Definition encodable (d : t) : bool :=
  is_ok (make_element (str_upper (version d))) && all_encodable (buildgroups d).

(** The tree [to_element] builds for an encodable document. *)
Definition element (d : t) : node :=
  NElement "BUILD_RULE" []
    [NElement (made_tag (str_upper (version d))) [] (map BuildGroup.element (buildgroups d))].

(** *** Serialisation *)

Lemma made_tag_ok tag : tag_ok tag = true -> made_tag tag = tag.
Proof. intros H%bool_decide_eq_true_1. unfold made_tag. by rewrite H. Qed.

Lemma make_element_made_tag tag :
  is_ok (make_element tag) = true -> make_element tag = Ok (NElement (made_tag tag) [] []).
Proof.
  unfold made_tag. destruct (make_element tag) as [e|] eqn:E; [|discriminate].
  intros _. destruct (make_element_shape _ _ E) as (? & ->). done.
Qed.

(** An encodable document is written as [<BUILD_RULE>] holding one
    version element whose children are the groups, in order. *)
Lemma file_to_element_ok d : encodable d = true -> to_element d = Ok (true, Some (element d)).
Proof.
  unfold encodable. intros [Hv Hg]%andb_true_iff.
  unfold to_element. rewrite (make_element_plain "BUILD_RULE") by reflexivity. simpl.
  rewrite make_element_made_tag by done. simpl.
  rewrite (append_loop_map _ BuildGroup.element) by (refine (all_to_element (A:=BuildGroup.t) BuildGroup.element _ BuildGroup.group_to_element_ok _); done).
  reflexivity.
Qed.

(** Any other document makes lxml raise [ValueError]: either the
    upper-cased version is not a tag lxml accepts, or a value holds a
    character XML does not allow. *)
Lemma file_to_element_err d :
  encodable d = false -> exists v, to_element d = Raise (ValueError v).
Proof.
  unfold encodable, to_element. intros H.
  rewrite (make_element_plain "BUILD_RULE") by reflexivity. simpl.
  destruct (make_element (str_upper (version d))) as [e|e] eqn:E; simpl in H |- *.
  - destruct (make_element_shape _ _ E) as (t' & ->).
    destruct (append_loop_err (A:=BuildGroup.t) (NElement t' [] []) (buildgroups d))
      as (v & Hv); [done|].
    exists v. simpl in Hv |- *. by rewrite Hv.
  - destruct (make_element_raise _ _ E) as (v & ->). eauto.
Qed.

(** *** Parsing *)

(** What [to_element] writes parses back to the same groups, with the
    version lower-cased from the tag that was written. *)
Lemma parse_root_element d :
  parse_root (element d)
  = Ok (mk (str_lower (made_tag (str_upper (version d)))) (buildgroups d)).
Proof.
  unfold parse_root. simpl. rewrite parse_loop_traverse.
  rewrite traverse_map_inv by apply BuildGroup.group_parse_element. done.
Qed.

(** [parse_root] reads the first child of the root: its tag, lowered,
    is the version, and its children, parsed in order, the groups. *)
Lemma parse_root_inv root d :
  parse_root root = Ok d ->
  exists tg a kids, first_child root = Ok (NElement tg a kids)
    /\ version d = str_lower tg /\ traverse BuildGroup.parse kids = Ok (buildgroups d).
Proof.
  unfold parse_root. intros H. exc_inv.
  match goal with Hl : parse_loop _ _ _ = Ok _ |- _ =>
    rewrite parse_loop_traverse in Hl; destruct (traverse _ _) eqn:Ht; simpl in Hl; exc_inv end.
  match goal with Hv : first_child root = Ok ?v, Ht : tag_lower (node_tag ?v) = Ok _ |- _ =>
    destruct v as [tg a kids| |]; simpl in Ht; exc_inv end.
  eauto 10.
Qed.

Lemma first_child_wf root c : wf_node root = true -> first_child root = Ok c -> wf_node c = true.
Proof.
  unfold first_child. destruct (node_children root) as [|c' kids] eqn:E; [discriminate|].
  intros Hwf [= <-]. apply (wf_node_children root); [done|]. rewrite E. constructor.
Qed.

(** A document parsed from a well-formed tree can be written, and the
    tree written parses back to the same document. *)
Lemma parsed_encodable root d :
  wf_node root = true -> parse_root root = Ok d ->
  encodable d = true /\ made_tag (str_upper (version d)) = str_upper (version d).
Proof.
  intros Hwf (tg & a & kids & Hf & Hv & Hg)%parse_root_inv.
  pose proof (first_child_wf _ _ Hwf Hf) as Hc. simpl in Hc.
  apply andb_true_iff in Hc as [[Htg _]%andb_true_iff Hkids].
  pose proof (tag_ok_upper_lower tg Htg) as Hup.
  rewrite Hv. unfold encodable. rewrite Hv.
  apply bool_decide_eq_true_1 in Hup as Hm. rewrite Hm. split; [|by apply made_tag_ok].
  simpl. eapply (traverse_encodable (A:=BuildGroup.t)); [|exact Hg].
  apply Forall_forall. intros c Hc. rewrite forallb_forall in Hkids. apply Hkids.
  first [done | by apply list_elem_of_In].
Qed.

(** *** Parse errors and what the parse ignores *)

(** C19: A root with no child raises [IndexError] at [root[0]]. *)
Lemma parse_root_no_child root :
  node_children root = [] -> parse_root root = Raise IndexError.
Proof. intros H. unfold parse_root, first_child. by rewrite H. Qed.

(** C20: A comment or processing instruction before the version element is
    taken as the version element: its [.tag] is a function, and
    [.lower()] raises [AttributeError]. *)
Lemma parse_root_first_not_element root c rest :
  node_children root = c :: rest -> (forall t a kids, c <> NElement t a kids) ->
  parse_root root = Raise AttributeError.
Proof.
  intros H Hc. unfold parse_root, first_child. rewrite H. simpl.
  destruct c as [t a kids| |]; [by destruct (Hc t a kids)|done..].
Qed.

(** C21: Only the first child of the root is read: the root's tag, its
    attributes and any later child are ignored. *)
Lemma parse_root_first_only t a v rest t' a' :
  parse_root (NElement t a (v :: rest)) = parse_root (NElement t' a' [v]).
Proof. reflexivity. Qed.

(** *** Round trips *)

(** Writing a document parsed from a well-formed tree and parsing the
    tree written gives the same document back. *)
Lemma parsed_roundtrip root d :
  wf_node root = true -> parse_root root = Ok d ->
  to_element d = Ok (true, Some (element d)) /\ parse_root (element d) = Ok d.
Proof.
  intros Hwf Hp. destruct (parsed_encodable root d Hwf Hp) as [Henc Htag].
  split; [by apply file_to_element_ok|].
  rewrite parse_root_element, Htag, str_lower_upper.
  apply parse_root_inv in Hp as (tg & a & kids & _ & Hv & _).
  rewrite Hv, str_lower_idem, <- Hv. by destruct d.
Qed.

(** C2: From a document: an encodable document whose upper-cased version
    lxml keeps as a tag is written and read back with its groups
    unchanged and its version lower-cased. *)
Theorem roundtrip_write_parse d :
  encodable d = true -> tag_ok (str_upper (version d)) = true ->
  exists e, to_element d = Ok (true, Some e)
    /\ parse_root e = Ok (mk (str_lower (version d)) (buildgroups d)).
Proof.
  intros Henc Htag. exists (element d). split; [by apply file_to_element_ok|].
  by rewrite parse_root_element, made_tag_ok, str_lower_upper.
Qed.

(** C4: Version case transform: the version element is written with the
    tag read, lowered then upper-cased; it is the tag that was read
    exactly when that tag has no lower-case letter. *)
Theorem version_tag_written root d tg a kids :
  wf_node root = true -> parse_root root = Ok d ->
  first_child root = Ok (NElement tg a kids) ->
  (exists groups, to_element d
     = Ok (true, Some (NElement "BUILD_RULE" [] [NElement (str_upper (str_lower tg)) [] groups])))
  /\ (str_upper (str_lower tg) = tg <-> has_lower tg = false).
Proof.
  intros Hwf Hp Hf. destruct (parsed_roundtrip root d Hwf Hp) as [Ht _].
  destruct (parsed_encodable root d Hwf Hp) as [_ Htag].
  apply parse_root_inv in Hp as (tg' & a' & kids' & Hf' & Hv & _).
  rewrite Hf in Hf'. injection Hf' as <- <- <-.
  split; [|apply str_upper_lower_id].
  eexists. rewrite Ht. unfold element. by rewrite Htag, Hv.
Qed.

(** *** Writing files *)

Lemma write_ok io d files q :
  encodable d = true ->
  write io d files q
  = (_ ← (tree_write io files q (element d)).1; mret true, (tree_write io files q (element d)).2).
Proof. intros H. unfold write. rewrite file_to_element_ok by done. simpl. by destruct (tree_write _ _ _ _). Qed.

(** C9: A document lxml refuses raises [ValueError] from [write] while
    the tree is built, before the file is opened: whatever the file
    operation would have done, the file system is unchanged. *)
Lemma write_err io d files q :
  encodable d = false -> exists v, write io d files q = (Raise (ValueError v), files).
Proof.
  intros H. destruct (file_to_element_err d H) as (v & Hv).
  exists v. unfold write. by rewrite Hv.
Qed.

(** C8: The failure flag of [write] is unreachable: whatever the file
    operation does, [write] returns [True] or raises. *)
Theorem write_never_false io d files q : (write io d files q).1 <> Ok false.
Proof.
  destruct (encodable d) eqn:H.
  - rewrite write_ok by done. by destruct io.
  - destruct (write_err io d files q H) as (v & ->). discriminate.
Qed.

Lemma parse_file files p root :
  files !! p = Some (XmlFile root) -> parse files p = parse_root root.
Proof. intros H. unfold parse, etree_parse. by rewrite H. Qed.

Lemma parse_wf files p d :
  wf_files files -> parse files p = Ok d ->
  exists root, files !! p = Some (XmlFile root) /\ wf_node root = true /\ parse_root root = Ok d.
Proof.
  unfold parse, etree_parse. intros Hwf H.
  destruct (files !! p) as [[root|]|] eqn:E; simpl in H; try discriminate.
  exists root. split; [done|]. split; [by apply (Hwf p (XmlFile root))|done].
Qed.

(** A document parsed from a readable file is written as [element]. *)
Lemma parse_write files p d io q :
  wf_files files -> parse files p = Ok d ->
  write io d files q
  = (_ ← (tree_write io files q (element d)).1; mret true, (tree_write io files q (element d)).2)
  /\ parse (<[q := XmlFile (element d)]> files) q = Ok d.
Proof.
  intros Hwf (root & _ & Hr & Hp)%parse_wf; [|done].
  destruct (parsed_roundtrip root d Hr Hp) as [Ht Hb]. split.
  - unfold write. rewrite Ht. simpl. by destruct (tree_write _ _ _ _).
  - rewrite (parse_file _ _ (element d)); [done|]. apply lookup_insert_eq.
Qed.

(** C1: File-level round trip: when the file operation succeeds, writing
    a document parsed from a file and parsing the file written gives the
    same document back. *)
Theorem parse_write_parse files p q d :
  wf_files files -> parse files p = Ok d ->
  exists files', write IoOk d files q = (Ok true, files') /\ parse files' q = Ok d.
Proof.
  intros Hwf Hp. destruct (parse_write files p d IoOk q Hwf Hp) as [-> Hb].
  by eexists.
Qed.

(** *** The program *)


(** C12: [main] is idempotent on the file system: on a well-formed file
    system, after a successful run a second run whose write succeeds
    prints the same document again and writes the same file. *)
Theorem main_idempotent io w w' :
  wf_files (files w) -> main io w = (w', None) ->
  exists d, stdout w' = (stdout w ++ [d])%list
    /\ main IoOk w' = (World (files w') (stdout w' ++ [d]), None).
Proof.
  unfold main. intros Hwf.
  destruct (parse (files w) main_path) as [d|e] eqn:Hp; [|discriminate].
  destruct (parse_wf _ _ _ Hwf Hp) as (root & _ & Hr & Hroot).
  destruct (parsed_encodable root d Hr Hroot) as [Henc _].
  destruct (parse_write _ _ _ io main_path Hwf Hp) as [Hw Hb].
  cbn [files stdout]. rewrite Hw. destruct io; simpl; intros H; inversion H; subst; clear H.
  exists d. split; [done|]. simpl. rewrite Hb, write_ok by done. simpl.
  by rewrite insert_insert_eq.
Qed.




(** *** Concrete runs *)

(** A document whose version upper-cases to a name starting with a
    digit cannot be written. *)
Example write_digit_version :
  write IoOk (mk "1.0" []) ∅ main_path = (Raise (ValueError VInvalidTag), ∅).
Proof. vm_compute. reflexivity. Qed.

(** *** Witnesses *)

Lemma roundtrip_write_parse_witness :
  encodable (mk "v2" []) = true /\ tag_ok (str_upper (version (mk "v2" []))) = true
  /\ exists e, to_element (mk "v2" []) = Ok (true, Some e)
     /\ parse_root e = Ok (mk (str_lower "v2") []).
Proof.
  split; [vm_compute; reflexivity|]. split; [vm_compute; reflexivity|].
  apply (roundtrip_write_parse (mk "v2" [])); vm_compute; reflexivity.
Defined.

Lemma version_tag_written_witness :
  wf_node example_root = true /\ parse_root example_root = Ok example
  /\ first_child example_root = Ok (NElement "V1" [] [BuildGroup.element BuildGroup.example])
  /\ (exists groups, to_element example
        = Ok (true, Some (NElement "BUILD_RULE" [] [NElement (str_upper (str_lower "V1")) [] groups])))
  /\ (str_upper (str_lower "V1") = "V1" <-> has_lower "V1" = false).
Proof.
  split; [vm_compute; reflexivity|]. split; [vm_compute; reflexivity|].
  split; [reflexivity|].
  apply (version_tag_written example_root example "V1" [] [BuildGroup.element BuildGroup.example]);
    vm_compute; reflexivity.
Defined.

Lemma write_err_witness :
  encodable (mk "1.0" []) = false
  /\ exists v, write WriteFails (mk "1.0" []) (files example_world) main_path
              = (Raise (ValueError v), files example_world).
Proof. split; [vm_compute; reflexivity|]. apply write_err. vm_compute. reflexivity. Defined.

Lemma wf_example_files : wf_files (files example_world).
Proof. apply map_Forall_singleton. vm_compute. reflexivity. Qed.

Lemma parse_write_parse_witness :
  wf_files (files example_world) /\ parse (files example_world) main_path = Ok example
  /\ exists files', write IoOk example (files example_world) "out.xml" = (Ok true, files')
     /\ parse files' "out.xml" = Ok example.
Proof.
  split; [apply wf_example_files|]. split; [vm_compute; reflexivity|].
  apply (parse_write_parse _ main_path); [apply wf_example_files|vm_compute; reflexivity].
Defined.

Lemma main_idempotent_witness :
  wf_files (files example_world)
  /\ main IoOk example_world = (World (files example_world) [example], None)
  /\ exists d, stdout (World (files example_world) [example]) = (stdout example_world ++ [d])%list
     /\ main IoOk (World (files example_world) [example])
        = (World (files example_world) ([example] ++ [d]), None).
Proof.
  split; [apply wf_example_files|]. split; [vm_compute; reflexivity|].
  apply (main_idempotent IoOk example_world); [apply wf_example_files|vm_compute; reflexivity].
Defined.


Lemma parse_root_no_child_witness :
  node_children (NElement "BUILD_RULE" [] []) = []
  /\ parse_root (NElement "BUILD_RULE" [] []) = Raise IndexError.
Proof. split; [reflexivity|]. by apply parse_root_no_child. Defined.

Lemma parse_root_first_not_element_witness :
  node_children (NElement "BUILD_RULE" [] [NComment "x"; NElement "V1" [] []])
    = [NComment "x"; NElement "V1" [] []]
  /\ (forall t a kids, NComment "x" <> NElement t a kids)
  /\ parse_root (NElement "BUILD_RULE" [] [NComment "x"; NElement "V1" [] []]) = Raise AttributeError.
Proof.
  split; [reflexivity|]. split; [discriminate|].
  apply (parse_root_first_not_element _ (NComment "x") [NElement "V1" [] []]);
    [reflexivity|discriminate].
Defined.


End BuildRuleFile.
