(* ===== verification/Heap.v ===== *)
(** lxml's elements as mutable objects, and the [to_element] methods of
    [src/build_rule.py] run on them.

    The value model of [Rule], [Group] and [RuleFile] builds trees as
    values.  The code builds them by mutation: [etree.Element] allocates
    a node, [e.attrib[k] = v] updates it, [parent.append(child)] links a
    child (after lxml's cycle check, moving it from a former parent), and
    [etree.SubElement(root_ele, tag)] links the new node at once, so that
    [BuildRuleFile.to_element] fills the version element through the
    alias [version_ele] after it is already under [root_ele].  This file
    models that store, runs the three [to_element] methods on it, and
    proves that reading the tree back out of the store gives exactly the
    value the value model computes. *)

From Stdlib Require Import Ascii String.
From stdpp Require Import base list strings decidable gmap.
From S2P Require Import Prelude PyStr Xml Codec Rule Group RuleFile.

Open Scope string_scope.
Open Scope list_scope.

Module HeapModel.

(** ** The store *)

Abbreviation loc := positive (only parsing).

(** An lxml element node: its tag, attributes, children and parent. *)
Record cell := Cell {
  c_tag : string;
  c_attrib : list (string * string);
  c_kids : list loc;
  c_parent : option loc;
}.

Record heap := Heap {
  cells : gmap loc cell;
  next : loc;
}.

(** A Python computation on the store: it returns or raises, and the
    store keeps the mutations made before an exception. *)
Definition hst (A : Type) : Type := heap -> exc A * heap.

#[global] Instance hst_ret : MRet hst := fun _ a h => (Ok a, h).
#[global] Instance hst_bind : MBind hst := fun _ _ f m h =>
  match m h with
  | (Ok a, h') => f a h'
  | (Raise e, h') => (Raise e, h')
  end.

Definition hlift {A} (m : exc A) : hst A := fun h => (m, h).

Definition h_modify (f : heap -> heap) : hst unit := fun h => (Ok tt, f h).

Definition update_cell (l : loc) (f : cell -> cell) (h : heap) : heap :=
  Heap (alter f l (cells h)) (next h).

(** ** lxml's operations *)

(** A new node at a fresh location. *)
Definition h_alloc (t : string) (a : list (string * string)) : hst loc := fun h =>
  (Ok (next h), Heap (<[next h := Cell t a [] None]> (cells h)) (Pos.succ (next h))).

(** [etree.Element(tag)]: lxml's checks, then a new detached node. *)
Definition h_element (tag : string) : hst loc :=
  e ← hlift (make_element tag);
  match e with
  | NElement t a _ => h_alloc t a
  | _ => hlift (Raise AssertionError)
  end.

(** [e.attrib[k] = v] *)
Definition h_set_attr (l : loc) (k v : string) : hst unit :=
  if negb (xml_compatible v) then hlift (Raise (ValueError VNotXmlCompatible)) else
  fun h => (Ok tt, update_cell l (fun c => Cell (c_tag c) (assoc_set k v (c_attrib c))
                                               (c_kids c) (c_parent c)) h).

(** The node and its ancestors, following parent links. *)
Fixpoint ancestors (fuel : nat) (h : heap) (l : loc) : list loc :=
  match fuel with
  | O => [l]
  | S fuel' =>
    l :: match cells h !! l with
         | Some c => match c_parent c with Some p => ancestors fuel' h p | None => [] end
         | None => []
         end
  end.

(** [xmlUnlinkNode]: remove a node from its parent's children. *)
Definition detach (c : loc) (h : heap) : heap :=
  match cells h !! c with
  | Some cc =>
    let h1 := update_cell c (fun x => Cell (c_tag x) (c_attrib x) (c_kids x) None) h in
    match c_parent cc with
    | Some q => update_cell q (fun x => Cell (c_tag x) (c_attrib x)
                                            (filter (fun y => y <> c) (c_kids x)) (c_parent x)) h1
    | None => h1
    end
  | None => h
  end.

(** [_linkChild]: the node becomes the last child of [p]. *)
Definition link (p c : loc) (h : heap) : heap :=
  let h1 := update_cell p (fun x => Cell (c_tag x) (c_attrib x) (c_kids x ++ [c]) (c_parent x)) h in
  update_cell c (fun x => Cell (c_tag x) (c_attrib x) (c_kids x) (Some p)) h1.

(** [parent.append(child)]: refuse a cycle, move the child, link it. *)
Definition h_append (p c : loc) : hst unit := fun h =>
  if bool_decide (c ∈ ancestors (size (cells h)) h p)
  then (Raise (ValueError VAppendAncestor), h)
  else (Ok tt, link p c (detach c h)).

(** [etree.SubElement(parent, tag)]: a new node linked under [parent]. *)
Definition h_subelement (p : loc) (tag : string) : hst loc :=
  l ← h_element tag; _ ← h_modify (link p l); mret l.

(** ** The program's [to_element] methods on the store *)

(** [BuildRule.to_element] *)
Definition rule_to_element (self : BuildRule.t) : hst (bool * option loc) :=
  rule_ele ← h_element "rule";
  _ ← h_set_attr rule_ele "productname" (BuildRule.productname self);
  _ ← h_set_attr rule_ele "added_contition" (BuildRule.added_contition self);
  _ ← h_set_attr rule_ele "addname" (BuildRule.addname self);
  _ ← h_set_attr rule_ele "target" (BuildRule.target self);
  mret (true, Some rule_ele).

(** The loop of [BuildGroup.to_element] and [BuildRuleFile.to_element]:
    [true] when it runs to its end, [false] on the early return. *)
Fixpoint append_loop_h {A} (to_element : A -> hst (bool * option loc)) (parent : loc)
    (items : list A) : hst bool :=
  match items with
  | [] => mret true
  | x :: xs =>
    '(ret, x_ele) ← to_element x;
    if negb ret then mret false else
    match x_ele with
    | None => hlift (Raise TypeError)
    | Some e => _ ← h_append parent e; append_loop_h to_element parent xs
    end
  end.

(** [BuildGroup.to_element] *)
Definition group_to_element (self : BuildGroup.t) : hst (bool * option loc) :=
  buildgroup_ele ← h_element "buildgroup";
  _ ← h_set_attr buildgroup_ele "name" (BuildGroup.name self);
  _ ← h_set_attr buildgroup_ele "weight" (BuildGroup.weight self);
  _ ← h_set_attr buildgroup_ele "producttype" (BuildGroup.producttype self);
  ok ← append_loop_h rule_to_element buildgroup_ele (BuildGroup.rules self);
  if negb ok then mret (false, None) else mret (true, Some buildgroup_ele).

(** [BuildRuleFile.to_element]: the version element is linked under the
    root first and filled afterwards through [version_ele]. *)
Definition file_to_element (self : BuildRuleFile.t) : hst (bool * option loc) :=
  root_ele ← h_element "BUILD_RULE";
  version_ele ← h_subelement root_ele (str_upper (BuildRuleFile.version self));
  ok ← append_loop_h group_to_element version_ele (BuildRuleFile.buildgroups self);
  if negb ok then mret (false, None) else mret (true, Some root_ele).

(** ** Reading a tree out of the store *)

Fixpoint materialize (fuel : nat) (h : heap) (l : loc) : option node :=
  match fuel with
  | O => None
  | S fuel' =>
    c ← cells h !! l;
    kids ← mapM (materialize fuel' h) (c_kids c);
    Some (NElement (c_tag c) (c_attrib c) kids)
  end.

(** The result of a [to_element] run, with the element read out of the
    final store (the depth of the documents is at most 4). *)
Definition run_value (m : hst (bool * option loc)) (h : heap) : exc (bool * option node) :=
  match m h with
  | (Ok (b, Some l), h') => Ok (b, materialize 4 h' l)
  | (Ok (b, None), _) => Ok (b, None)
  | (Raise e, _) => Raise e
  end.

(** ** Invariants of the store *)

(** Children are allocated after their parent and parents before their
    children; every location in use, and every child, is below [next]. *)
Definition ordered (h : heap) : Prop :=
  forall x c, cells h !! x = Some c ->
    (x < next h)%positive
    /\ Forall (fun y => (x < y)%positive /\ (y < next h)%positive) (c_kids c)
    /\ (forall p, c_parent c = Some p -> (p < x)%positive).

(** A run of a [to_element] method on the store refines its value
    model [v]: on an ordered store it raises the same exception, or it
    returns a fresh detached node, allocated after every node of the
    store, leaving the old nodes as they were, whose tree (read with
    any fuel from [d] on) is the value [v] returns. *)
Definition builds (m : hst (bool * option loc)) (v : exc (bool * option node)) (d : nat)
    : Prop :=
  forall h, ordered h ->
  match v with
  | Ok (true, Some e) =>
    exists l h', m h = (Ok (true, Some l), h') /\ ordered h'
      /\ (next h <= l)%positive /\ (l < next h')%positive
      /\ (forall x, (x < next h)%positive -> cells h' !! x = cells h !! x)
      /\ (exists c, cells h' !! l = Some c /\ c_parent c = None)
      /\ (forall k, d <= k -> materialize k h' l = Some e)
  | Raise err => exists h', m h = (Raise err, h')
  | _ => False
  end.

(** The store before the program runs. *)
Definition empty_heap : heap := Heap ∅ 1.

(** What [materialize] reads of a node. *)
Definition content (c : cell) : string * list (string * string) * list loc :=
  (c_tag c, c_attrib c, c_kids c).

(** ** Lemmas on the store *)

Lemma mapM_snoc {A B} (f : A -> option B) l x ks e :
  mapM f l = Some ks -> f x = Some e -> mapM f (l ++ [x]) = Some (ks ++ [e]).
Proof.
  intros Hl Hx. apply mapM_Some. apply Forall2_app; [by apply mapM_Some|].
  by constructor.
Qed.

(** The tree below [l] depends only on the nodes from [l] on. *)
Lemma materialize_agree k h1 h2 l :
  ordered h1 -> (l < next h1)%positive ->
  (forall x, (l <= x)%positive -> (x < next h1)%positive ->
     content <$> cells h1 !! x = content <$> cells h2 !! x) ->
  materialize k h1 l = materialize k h2 l.
Proof.
  revert l; induction k as [|k IH]; intros l Hord Hl Hagree; simpl; [done|].
  specialize (Hagree l ltac:(lia) Hl) as Hl'.
  destruct (cells h1 !! l) as [c1|] eqn:E1, (cells h2 !! l) as [c2|]; simpl in Hl'; try done.
  injection Hl' as Ht Ha Hk. simpl. rewrite Ht, Ha, Hk.
  destruct (Hord l c1 E1) as (_ & Hkids & _). rewrite Hk in Hkids.
  rewrite (Forall_mapM_ext _ (materialize k h2)); [done|].
  eapply Forall_impl; [exact Hkids|]. intros y [Hy1 Hy2].
  apply IH; [done|done|]. intros x Hx1 Hx2. apply Hagree; lia.
Qed.

Lemma ordered_alloc h t a :
  ordered h -> ordered (Heap (<[next h := Cell t a [] None]> (cells h)) (Pos.succ (next h))).
Proof.
  intros Hord x c. simpl. rewrite lookup_insert.
  case_decide as Hx; [intros [= <-]; simpl; repeat split; [lia|constructor|discriminate]|].
  intros Hc. destruct (Hord x c Hc) as (H1 & H2 & H3). repeat split; [lia| |done].
  eapply Forall_impl; [exact H2|]. intros y [? ?]; lia.
Qed.

Lemma ordered_update h l f :
  ordered h -> (forall c, c_kids (f c) = c_kids c /\ c_parent (f c) = c_parent c) ->
  ordered (update_cell l f h).
Proof.
  intros Hord Hf x c. unfold update_cell. simpl. rewrite lookup_alter.
  case_decide; [|apply Hord]. subst.
  destruct (cells h !! x) as [c0|] eqn:E; simpl; [|discriminate]. intros [= <-].
  destruct (Hf c0) as [-> ->]. by apply Hord.
Qed.

Lemma ordered_link h p c :
  ordered h -> (p < c)%positive -> (c < next h)%positive -> is_Some (cells h !! p) ->
  ordered (link p c h).
Proof.
  intros Hord Hpc Hc [cp Hp] x cx. unfold link, update_cell. simpl.
  destruct (decide (c = x)) as [<-|Hcx].
  - rewrite lookup_alter_eq, lookup_alter_ne by lia.
    destruct (cells h !! c) as [c0|] eqn:E; simpl; [|discriminate]. intros [= <-]. simpl.
    destruct (Hord c c0 E) as (H1 & H2 & H3). repeat split; [done|done|]. intros ? [= <-]. lia.
  - rewrite lookup_alter_ne by done.
    destruct (decide (p = x)) as [<-|Hpx]; [|rewrite lookup_alter_ne by done; apply Hord].
    rewrite lookup_alter_eq, Hp. simpl. intros [= <-]. simpl.
    destruct (Hord p cp Hp) as (H1 & H2 & H3). repeat split; [done| |done].
    apply Forall_app; split; [done|]. constructor; [lia|done].
Qed.

(** The ancestors of a node were all allocated no later than it. *)
Lemma ancestors_le fuel h p y :
  ordered h -> y ∈ ancestors fuel h p -> (y <= p)%positive.
Proof.
  intros Hord. revert p; induction fuel as [|fuel IH]; intros p; simpl.
  - intros ->%list_elem_of_singleton. lia.
  - intros [->|Hy]%elem_of_cons; [lia|].
    destruct (cells h !! p) as [c|] eqn:E; [|by apply not_elem_of_nil in Hy].
    destruct (c_parent c) as [q|] eqn:Eq; [|by apply not_elem_of_nil in Hy].
    destruct (Hord p c E) as (_ & _ & Hq). specialize (Hq q Eq).
    apply IH in Hy. lia.
Qed.

Lemma detach_detached h c cc :
  cells h !! c = Some cc -> c_parent cc = None -> detach c h = h.
Proof.
  intros Hc Hp. unfold detach. rewrite Hc, Hp. unfold update_cell.
  rewrite alter_id; [by destruct h|]. intros x Hx. rewrite Hc in Hx. injection Hx as <-.
  destruct cc; simpl in *; by subst.
Qed.

(** Appending a detached node allocated after the parent: no cycle, no move. *)
Lemma h_append_fresh h p c cc :
  ordered h -> (p < c)%positive -> cells h !! c = Some cc -> c_parent cc = None ->
  h_append p c h = (Ok tt, link p c h).
Proof.
  intros Hord Hpc Hc Hpar. unfold h_append.
  rewrite bool_decide_false; [by rewrite (detach_detached h c cc)|].
  intros Hin%(ancestors_le _ _ _ _ Hord). lia.
Qed.

(** ** The operations on a fresh node *)

Lemma h_element_plain t h :
  valid_name t = true ->
  h_element t h = (Ok (next h), Heap (<[next h := Cell t [] [] None]> (cells h)) (Pos.succ (next h))).
Proof. intros Hv. unfold h_element. simpl. by rewrite make_element_plain. Qed.

Lemma h_set_attr_fresh l t a kids p m nx k v :
  xml_compatible v = true ->
  h_set_attr l k v (Heap (<[l := Cell t a kids p]> m) nx)
  = (Ok tt, Heap (<[l := Cell t (assoc_set k v a) kids p]> m) nx).
Proof. intros Hv. unfold h_set_attr. rewrite Hv. simpl. unfold update_cell. simpl. by rewrite alter_insert_eq. Qed.

Lemma h_set_attr_err l k v h :
  xml_compatible v = false -> h_set_attr l k v h = (Raise (ValueError VNotXmlCompatible), h).
Proof. intros Hv. unfold h_set_attr. by rewrite Hv. Qed.

(** A node just allocated with no child reads back as a leaf. *)
Lemma materialize_leaf k h l t a p :
  cells h !! l = Some (Cell t a [] p) -> materialize (S k) h l = Some (NElement t a []).
Proof. intros H. simpl. by rewrite H. Qed.

Lemma builds_leaf h t a :
  ordered h ->
  let h' := Heap (<[next h := Cell t a [] None]> (cells h)) (Pos.succ (next h)) in
  ordered h' /\ (forall x, (x < next h)%positive -> cells h' !! x = cells h !! x)
  /\ (forall k, 1 <= k -> materialize k h' (next h) = Some (NElement t a [])).
Proof.
  intros Hord h'. split; [by apply ordered_alloc|]. split.
  - intros x Hx. simpl. rewrite lookup_insert_ne; [done|lia].
  - intros [|k] Hk; [lia|]. apply materialize_leaf with None. simpl. apply lookup_insert_eq.
Qed.

Lemma link_lookup_ne h p c x :
  x <> p -> x <> c -> cells (link p c h) !! x = cells h !! x.
Proof. intros. unfold link, update_cell. simpl. by rewrite !lookup_alter_ne. Qed.

Lemma link_content_ne h p c x :
  x <> p -> content <$> cells (link p c h) !! x = content <$> cells h !! x.
Proof.
  intros Hx. destruct (decide (x = c)) as [->|Hc]; [|by rewrite link_lookup_ne].
  unfold link, update_cell. simpl. rewrite lookup_alter_eq, lookup_alter_ne by done.
  by destruct (cells h !! c).
Qed.

Lemma link_lookup_parent h p c cp :
  p <> c -> cells h !! p = Some cp ->
  cells (link p c h) !! p = Some (Cell (c_tag cp) (c_attrib cp) (c_kids cp ++ [c]) (c_parent cp)).
Proof.
  intros Hpc Hp. unfold link, update_cell. simpl.
  rewrite lookup_alter_ne, lookup_alter_eq, Hp by done. done.
Qed.

Lemma next_link h p c : next (link p c h) = next h.
Proof. done. Qed.

(** Reading a node's tree with one more child appended. *)
Lemma materialize_link k h p c cp t a ks e :
  ordered h -> (p < c)%positive -> (c < next h)%positive ->
  cells h !! p = Some cp ->
  materialize (S k) h p = Some (NElement t a ks) -> materialize k h c = Some e ->
  materialize (S k) (link p c h) p = Some (NElement t a (ks ++ [e])).
Proof.
  intros Hord Hpc Hc Hp Hm He. cbn [materialize] in Hm |- *. rewrite Hp in Hm. simpl in Hm.
  rewrite (link_lookup_parent h p c cp) by (done || lia). simpl.
  destruct (mapM (materialize k h) (c_kids cp)) as [ks'|] eqn:Hks; simpl in Hm; [|discriminate].
  injection Hm as <- <- <-. destruct (Hord p cp Hp) as (_ & Hkids & _).
  rewrite (mapM_snoc _ _ _ ks' e); [done| |].
  - rewrite <- Hks. symmetry. apply Forall_mapM_ext.
    eapply Forall_impl; [exact Hkids|]. intros y [Hy1 Hy2].
    apply materialize_agree; [done|done|]. intros x Hx1 Hx2.
    symmetry. apply link_content_ne. lia.
  - rewrite <- He. symmetry. apply materialize_agree; [done|done|].
    intros x Hx1 Hx2. symmetry. apply link_content_ne. lia.
Qed.

Lemma link_lookup_child h p c cc :
  p <> c -> cells h !! c = Some cc ->
  cells (link p c h) !! c = Some (Cell (c_tag cc) (c_attrib cc) (c_kids cc) (Some p)).
Proof.
  intros Hpc Hc. unfold link, update_cell. simpl.
  rewrite lookup_alter_eq, lookup_alter_ne, Hc by done. done.
Qed.

Ltac hst_unfold := unfold mbind, hst_bind, mret, hst_ret, hlift in *.

(** ** Refinement, level by level *)

(** [BuildRule.to_element] on the store refines its value model. *)
Lemma rule_builds r : builds (rule_to_element r) (BuildRule.to_element r) 1.
Proof.
  intros h Hord. destruct (BuildRule.encodable r) eqn:He.
  - rewrite BuildRule.rule_to_element_ok by done.
    unfold BuildRule.encodable in He. repeat apply andb_true_iff in He as [He ?].
    unfold rule_to_element. hst_unfold. rewrite h_element_plain by reflexivity.
    rewrite !h_set_attr_fresh by done. simpl.
    destruct (builds_leaf h "rule" (BuildRule.attrs r) Hord) as (Ho & Hf & Hm).
    eexists _, _. split; [reflexivity|]. split; [exact Ho|].
    repeat split; simpl; try lia; [exact Hf| |exact Hm].
    eexists. split; [apply lookup_insert_eq|done].
  - rewrite BuildRule.rule_to_element_err by done.
    unfold BuildRule.encodable in He.
    unfold rule_to_element. hst_unfold. rewrite h_element_plain by reflexivity.
    destruct (xml_compatible (BuildRule.productname r)) eqn:H1;
      [rewrite h_set_attr_fresh by done|rewrite h_set_attr_err by done; eauto].
    destruct (xml_compatible (BuildRule.added_contition r)) eqn:H2;
      [rewrite h_set_attr_fresh by done|rewrite h_set_attr_err by done; eauto].
    destruct (xml_compatible (BuildRule.addname r)) eqn:H3;
      [rewrite h_set_attr_fresh by done|rewrite h_set_attr_err by done; eauto].
    destruct (xml_compatible (BuildRule.target r)) eqn:H4; [simpl in He; discriminate|].
    rewrite h_set_attr_err by done. eauto.
Qed.

(** The append loop on the store refines the value loop, for any item
    type whose method refines its value model. *)
Section Loop.
Context {A : Type} (ht : A -> hst (bool * option loc)) (vt : A -> exc (bool * option node)).
Variable d : nat.
Hypothesis Hb : forall x, builds (ht x) (vt x) d.

Lemma append_loop_builds (xs : list A) h p t a ks :
  ordered h -> (p < next h)%positive -> is_Some (cells h !! p) ->
  (forall k, S d <= k -> materialize k h p = Some (NElement t a ks)) ->
  match append_loop vt (NElement t a ks) xs with
  | Ok (Some e') =>
    exists h', append_loop_h ht p xs h = (Ok true, h') /\ ordered h'
      /\ (next h <= next h')%positive
      /\ (forall x, (x < next h)%positive -> x <> p -> cells h' !! x = cells h !! x)
      /\ (forall cp, cells h !! p = Some cp ->
            exists cp', cells h' !! p = Some cp' /\ c_parent cp' = c_parent cp)
      /\ (forall k, S d <= k -> materialize k h' p = Some e')
  | Raise err => exists h', append_loop_h ht p xs h = (Raise err, h')
  | Ok None => False
  end.
Proof.
  revert h ks; induction xs as [|x xs IH]; intros h ks Hord Hp [cp Hcp] Hm; simpl.
  - exists h. hst_unfold. do 3 (split; [done || lia|]). split; [done|]. split; [eauto|done].
  - pose proof (Hb x h Hord) as Hx.
    destruct (vt x) as [[[|] [e|]]|err]; simpl; try contradiction.
    + destruct Hx as (l & h1 & Hrun & Hord1 & Hl1 & Hl2 & Hframe & (cl & Hcl & Hpar) & Hml).
      hst_unfold. rewrite Hrun. simpl.
      assert (cells h1 !! p = Some cp) as Hcp1 by (rewrite Hframe; [done|lia]).
      rewrite (h_append_fresh h1 p l cl) by (done || lia). simpl.
      set (h2 := link p l h1).
      assert (ordered h2) as Hord2 by (apply ordered_link; eauto; lia).
      assert (forall k, S d <= k -> materialize k h2 p = Some (NElement t a (ks ++ [e]))) as Hm2.
      { intros [|k] Hk; [lia|]. apply (materialize_link k h1 p l cp); try (done || lia).
        - rewrite <- (Hm (S k)) by lia. symmetry. apply materialize_agree; [done|lia|].
          intros y Hy1 Hy2. by rewrite Hframe.
        - apply Hml. lia. }
      specialize (IH h2 (ks ++ [e]) Hord2 ltac:(unfold h2; simpl; lia)
                    ltac:(unfold h2; rewrite (link_lookup_parent h1 p l cp) by (done || lia); eauto) Hm2).
      destruct (append_loop vt (NElement t a (ks ++ [e])) xs) as [[e'|]|err']; [|done|].
      * destruct IH as (h' & Hrun' & Hord' & Hnext' & Hframe' & Hp' & Hm').
        exists h'. split; [done|]. split; [done|]. unfold h2 in *. rewrite next_link in Hnext'.
        split; [lia|]. split; [|split; [|done]].
        -- intros y Hy Hyp.
           rewrite Hframe' by (rewrite ?next_link; lia). rewrite link_lookup_ne by lia.
           apply Hframe. lia.
        -- intros cp0 Hcp0. rewrite Hcp in Hcp0. injection Hcp0 as <-.
           destruct (Hp' _ (link_lookup_parent h1 p l cp ltac:(lia) Hcp1)) as (cp' & ? & ?).
           eauto.
      * destruct IH as (h' & Hrun'). eauto.
    + destruct Hx as (h' & Hrun). hst_unfold. rewrite Hrun. eauto.
Qed.
End Loop.

(** Setting attributes of a just-allocated node, in the value model and
    on the store: both raise at the first incompatible value. *)
Ltac set_attr_step v :=
  let E := fresh "E" in
  destruct (xml_compatible v) eqn:E;
  [ rewrite (set_attr_element _ _ _ _ v) by done; rewrite h_set_attr_fresh by done
  | rewrite (set_attr_incompatible _ _ v), h_set_attr_err by done; simpl; eauto ].

(** [BuildGroup.to_element] on the store refines its value model. *)
Lemma group_builds g : builds (group_to_element g) (BuildGroup.to_element g) 2.
Proof.
  intros h Hord. unfold BuildGroup.to_element, group_to_element.
  rewrite make_element_plain by reflexivity. hst_unfold.
  rewrite h_element_plain by reflexivity. cbn [mbind exc_bind].
  set_attr_step (BuildGroup.name g). cbn [mbind exc_bind].
  set_attr_step (BuildGroup.weight g). cbn [mbind exc_bind].
  set_attr_step (BuildGroup.producttype g). cbn [mbind exc_bind].
  set (a := assoc_set "producttype" (BuildGroup.producttype g)
              (assoc_set "weight" (BuildGroup.weight g) (assoc_set "name" (BuildGroup.name g) []))).
  destruct (builds_leaf h "buildgroup" a Hord) as (Ho & Hf & Hm).
  pose proof (append_loop_builds rule_to_element BuildRule.to_element 1 rule_builds
                (BuildGroup.rules g) _ (next h) "buildgroup" a [] Ho
                ltac:(simpl; lia) ltac:(simpl; rewrite lookup_insert_eq; eauto)
                ltac:(intros k Hk; apply Hm; lia)) as Hl.
  destruct (append_loop BuildRule.to_element (NElement "buildgroup" a []) (BuildGroup.rules g))
    as [[e'|]|err]; simpl; [|done|].
  - destruct Hl as (h' & Hrun & Hord' & Hnext & Hframe & Hpar & Hm').
    rewrite Hrun. simpl. exists (next h), h'. split; [done|]. split; [done|].
    simpl in Hnext. split; [lia|]. split; [lia|]. split; [|split].
    + intros x Hx. rewrite Hframe by (simpl; lia). simpl. rewrite lookup_insert_ne; [done|lia].
    + destruct (Hpar _ (lookup_insert_eq _ _ _)) as (cp' & ? & ?). eauto.
    + intros k Hk. apply Hm'. lia.
  - destruct Hl as (h' & Hrun). rewrite Hrun. eauto.
Qed.

(** [BuildRuleFile.to_element] on the store, with the version element
    filled through its alias after being linked under the root, refines
    its value model. *)
Lemma file_builds d : builds (file_to_element d) (BuildRuleFile.to_element d) 4.
Proof.
  intros h Hord. unfold BuildRuleFile.to_element, file_to_element, h_subelement.
  rewrite (make_element_plain "BUILD_RULE") by reflexivity. hst_unfold.
  rewrite (h_element_plain "BUILD_RULE") by reflexivity. cbn [mbind exc_bind].
  set (hR := Heap (<[next h := Cell "BUILD_RULE" [] [] None]> (cells h)) (Pos.succ (next h))).
  unfold h_element. hst_unfold.
  destruct (make_element (str_upper (BuildRuleFile.version d))) as [e|err] eqn:Ev;
    cbn [mbind exc_bind].
  2:{ simpl. eauto. }
  destruct (make_element_shape _ _ Ev) as (t' & ->).
  pose proof (ordered_alloc h "BUILD_RULE" [] Hord) as HoR.
  pose proof (ordered_alloc hR t' [] HoR) as HoV.
  set (hV := Heap (<[next hR := Cell t' [] [] None]> (cells hR)) (Pos.succ (next hR))) in *.
  unfold h_alloc, h_modify. cbn.
  set (h1 := link (next h) (next hR) hV).
  assert (cells hV !! next h = Some (Cell "BUILD_RULE" [] [] None)) as HR.
  { unfold hV, hR; simpl. rewrite lookup_insert_ne by lia. apply lookup_insert_eq. }
  assert (cells hV !! next hR = Some (Cell t' [] [] None)) as HV by apply lookup_insert_eq.
  assert (ordered h1) as Ho1.
  { apply ordered_link; [done|unfold hR; simpl; lia|unfold hV; simpl; lia|rewrite HR; by eexists]. }
  assert (cells h1 !! next hR = Some (Cell t' [] [] (Some (next h)))) as HV1.
  { unfold h1. apply (link_lookup_child hV _ _ (Cell t' [] [] None)); [unfold hR; simpl; lia|exact HV]. }
  assert (cells h1 !! next h = Some (Cell "BUILD_RULE" [] [next hR] None)) as HR1.
  { unfold h1. apply (link_lookup_parent hV _ _ (Cell "BUILD_RULE" [] [] None)); [unfold hR; simpl; lia|exact HR]. }
  pose proof (append_loop_builds group_to_element BuildGroup.to_element 2 group_builds
                (BuildRuleFile.buildgroups d) h1 (next hR) t' [] [] Ho1
                ltac:(unfold h1, hV; simpl; lia) ltac:(rewrite HV1; by eexists)
                ltac:(intros [|k] Hk; [lia|]; by apply (materialize_leaf k h1 _ _ _ (Some (next h))))) as Hl.
  destruct (append_loop BuildGroup.to_element (NElement t' [] []) (BuildRuleFile.buildgroups d))
    as [[e'|]|err]; cbn [mbind exc_bind]; [|done|].
  - destruct Hl as (h' & Hrun & Hord' & Hnext & Hframe & _ & Hm').
    unfold h1, hV, hR in Hrun. cbn [cells next] in Hrun. rewrite Hrun. simpl.
    unfold h1, hV, hR in *; cbn [cells next] in *.
    rewrite next_link in Hnext, Hframe. cbn [next] in Hnext, Hframe.
    exists (next h), h'. split; [done|]. split; [done|]. split; [lia|]. split; [lia|].
    assert (cells h' !! next h = Some (Cell "BUILD_RULE" [] [Pos.succ (next h)] None)) as HR'.
    { rewrite Hframe by lia. exact HR1. }
    split; [|split].
    + intros x Hx. rewrite Hframe by lia. rewrite link_lookup_ne by lia. simpl.
      rewrite !lookup_insert_ne by lia. done.
    + eauto.
    + intros [|k] Hk; [lia|]. cbn [materialize]. rewrite HR'. simpl.
      rewrite Hm' by lia. done.
  - destruct Hl as (h' & Hrun).
    unfold h1, hV, hR in Hrun. cbn [cells next] in Hrun. rewrite Hrun. eauto.
Qed.

Lemma ordered_empty : ordered empty_heap.
Proof. intros x c. simpl. by rewrite lookup_empty. Qed.

(** ** The theorems *)

(** C3: Refinement: on any well-formed store, running [to_element] by
    mutation and reading the root back gives exactly the value model's
    result, exceptions included; in particular the groups appended to
    [version_ele] after [SubElement] linked it are seen from the root. *)
Theorem file_to_element_refines d h :
  ordered h -> run_value (file_to_element d) h = BuildRuleFile.to_element d.
Proof.
  intros Hord. pose proof (file_builds d h Hord) as Hb. unfold run_value.
  destruct (BuildRuleFile.to_element d) as [[[|] [e|]]|err]; try contradiction.
  - destruct Hb as (l & h' & -> & _ & _ & _ & _ & _ & Hm). by rewrite Hm.
  - destruct Hb as (h' & ->). done.
Qed.

(** C13: Invariant of the store: a successful [to_element] leaves it ordered,
    changes none of the nodes that existed before, and returns a fresh
    root with no parent. *)
Theorem file_to_element_store d h l h' :
  ordered h -> file_to_element d h = (Ok (true, Some l), h') ->
  ordered h' /\ (forall x, (x < next h)%positive -> cells h' !! x = cells h !! x)
  /\ (next h <= l < next h')%positive
  /\ exists c, cells h' !! l = Some c /\ c_parent c = None.
Proof.
  intros Hord Hrun. pose proof (file_builds d h Hord) as Hb.
  destruct (BuildRuleFile.to_element d) as [[[|] [e|]]|err]; try contradiction.
  - destruct Hb as (l' & h'' & Hrun' & Ho & Hl1 & Hl2 & Hf & Hp & _).
    rewrite Hrun in Hrun'. injection Hrun' as <- <-. split; [done|]. split; [done|].
    split; [lia|done].
  - destruct Hb as (h'' & Hrun'). congruence.
Qed.

(** *** Witnesses *)

Lemma file_to_element_refines_witness :
  ordered empty_heap
  /\ run_value (file_to_element BuildRuleFile.example) empty_heap
     = BuildRuleFile.to_element BuildRuleFile.example.
Proof. split; [apply ordered_empty|]. apply file_to_element_refines, ordered_empty. Defined.

Lemma file_to_element_store_witness :
  ordered empty_heap
  /\ file_to_element BuildRuleFile.example empty_heap
     = (Ok (true, Some 1%positive), snd (file_to_element BuildRuleFile.example empty_heap))
  /\ (ordered (snd (file_to_element BuildRuleFile.example empty_heap))
      /\ (forall x, (x < next empty_heap)%positive ->
            cells (snd (file_to_element BuildRuleFile.example empty_heap)) !! x = cells empty_heap !! x)
      /\ (next empty_heap <= 1 < next (snd (file_to_element BuildRuleFile.example empty_heap)))%positive
      /\ exists c, cells (snd (file_to_element BuildRuleFile.example empty_heap)) !! 1%positive = Some c
                  /\ c_parent c = None).
Proof.
  split; [apply ordered_empty|]. split; [vm_compute; reflexivity|].
  apply (file_to_element_store BuildRuleFile.example empty_heap); [apply ordered_empty|].
  vm_compute. reflexivity.
Defined.

End HeapModel.
