(* ===== verification/Spec.v ===== *)
(** The file format of the spec (section 6) as abstract relations
    between trees and documents, and the refinement theorems relating the
    code to it: every tree in the format parses to the document the
    format assigns it; every tree the code writes is in the stricter
    format the spec fixes on write (root [BUILD_RULE], the version
    upper-cased); the parse never reads the tags of groups and rules. *)

From Stdlib Require Import Ascii String.
From stdpp Require Import base list strings decidable gmap.
From S2P Require Import Prelude PyStr Xml Codec Rule Group RuleFile.

Open Scope string_scope.

Module FileFormat.

(** [<rule productname=".." added_contition=".." addname=".." target=".."/>] *)
Inductive rule_tree : node -> BuildRule.t -> Prop :=
  | RuleTree a r :
      Forall (fun kv => assoc_get kv.1 a = Some kv.2) (BuildRule.attrs r) ->
      rule_tree (NElement "rule" a []) r.

(** [<buildgroup name=".." weight=".." producttype="..">rules</buildgroup>] *)
Inductive group_tree : node -> BuildGroup.t -> Prop :=
  | GroupTree a kids g :
      Forall (fun kv => assoc_get kv.1 a = Some kv.2) (BuildGroup.attrs g) ->
      Forall2 rule_tree kids (BuildGroup.rules g) ->
      group_tree (NElement "buildgroup" a kids) g.

(** [<ROOT><VersionTag>groups</VersionTag></ROOT>]: the root's tag is
    not inspected, the version is the tag lower-cased. *)
Inductive file_tree : node -> BuildRuleFile.t -> Prop :=
  | FileTree root_tag root_attrs vtag vattrs kids d :
      BuildRuleFile.version d = str_lower vtag ->
      Forall2 group_tree kids (BuildRuleFile.buildgroups d) ->
      file_tree (NElement root_tag root_attrs [NElement vtag vattrs kids]) d.

(** The format as the spec fixes it on write: the root is exactly
    [<BUILD_RULE>] with no attribute and one child, tagged with the
    document's version upper-cased, holding the groups in order. *)
Inductive written_tree : node -> BuildRuleFile.t -> Prop :=
  | WrittenTree kids d :
      Forall2 group_tree kids (BuildRuleFile.buildgroups d) ->
      written_tree
        (NElement "BUILD_RULE" [] [NElement (str_upper (BuildRuleFile.version d)) [] kids]) d.

(** A tree with the tags of its groups replaced by [tg] and those of
    their children by [tr]. *)
Definition retag_rule (tr : string) (n : node) : node :=
  match n with NElement _ a kids => NElement tr a kids | _ => n end.

Definition retag_group (tg tr : string) (n : node) : node :=
  match n with NElement _ a kids => NElement tg a (map (retag_rule tr) kids) | _ => n end.

Definition retag (tg tr : string) (t : node) : node :=
  match t with
  | NElement rt ra [NElement vt va kids] =>
      NElement rt ra [NElement vt va (map (retag_group tg tr) kids)]
  | _ => t
  end.

(** *** The format as boolean checks *)

Fixpoint forall2b {A B} (f : A -> B -> bool) (l1 : list A) (l2 : list B) : bool :=
  match l1, l2 with
  | [], [] => true
  | x :: l1', y :: l2' => f x y && forall2b f l1' l2'
  | _, _ => false
  end.

Definition lookups_ok (a : list (string * string)) (kvs : list (string * string)) : bool :=
  forallb (fun kv => bool_decide (assoc_get kv.1 a = Some kv.2)) kvs.

Definition rule_treeb (n : node) (r : BuildRule.t) : bool :=
  match n with
  | NElement tg a kids =>
      bool_decide (tg = "rule") && bool_decide (kids = []) && lookups_ok a (BuildRule.attrs r)
  | _ => false
  end.

Definition group_treeb (n : node) (g : BuildGroup.t) : bool :=
  match n with
  | NElement tg a kids =>
      bool_decide (tg = "buildgroup") && lookups_ok a (BuildGroup.attrs g)
      && forall2b rule_treeb kids (BuildGroup.rules g)
  | _ => false
  end.

Definition file_treeb (t : node) (d : BuildRuleFile.t) : bool :=
  match t with
  | NElement _ _ [NElement vtag _ kids] =>
      bool_decide (BuildRuleFile.version d = str_lower vtag)
      && forall2b group_treeb kids (BuildRuleFile.buildgroups d)
  | _ => false
  end.

(** *** Every tree in the format parses to its document *)

Lemma attrs_lookup_self_rule r :
  Forall (fun kv => assoc_get kv.1 (BuildRule.attrs r) = Some kv.2) (BuildRule.attrs r).
Proof. repeat constructor. Qed.

Lemma attrs_lookup_self_group g :
  Forall (fun kv => assoc_get kv.1 (BuildGroup.attrs g) = Some kv.2) (BuildGroup.attrs g).
Proof. repeat constructor. Qed.

Lemma rule_tree_parse n r tr : rule_tree n r -> BuildRule.parse (retag_rule tr n) = Ok r.
Proof.
  intros [a [p c an tg] Ha]. rewrite (BuildRule.rule_parse_attrib _ a) by done.
  unfold BuildRule.attrs in Ha. simpl in Ha.
  repeat (apply Forall_cons_iff in Ha as [? Ha]). simpl in *.
  unfold lookup_key. by simplify_option_eq.
Qed.

Lemma group_tree_parse n g tg tr :
  group_tree n g -> BuildGroup.parse (retag_group tg tr n) = Ok g.
Proof.
  intros [a kids [nm w pt rs] Ha Hk]. rewrite (BuildGroup.group_parse_attrib _ a) by done.
  unfold BuildGroup.attrs in Ha. simpl in Ha.
  repeat (apply Forall_cons_iff in Ha as [? Ha]). simpl in *.
  unfold lookup_key. simplify_option_eq. rewrite parse_loop_traverse.
  rewrite (proj2 (traverse_Ok_iff _ (map (retag_rule tr) kids) rs)); [done|].
  apply Forall2_fmap_l. eapply Forall2_impl; [exact Hk|]. intros; by apply rule_tree_parse.
Qed.

(** The groups of a tree in the format parse whatever their tags. *)
Lemma file_tree_parse t d tg tr : file_tree t d -> BuildRuleFile.parse_root (retag tg tr t) = Ok d.
Proof.
  intros [rt ra vtag va kids [v gs] Hv Hg]. simpl in Hv. subst v.
  unfold BuildRuleFile.parse_root. simpl. rewrite parse_loop_traverse.
  rewrite (proj2 (traverse_Ok_iff _ (map (retag_group tg tr) kids) gs)); [done|].
  apply Forall2_fmap_l. eapply Forall2_impl; [exact Hg|]. intros; by apply group_tree_parse.
Qed.

Lemma retag_file_tree t d : file_tree t d -> retag "buildgroup" "rule" t = t.
Proof.
  intros [rt ra vtag va kids d' _ Hg]. simpl. do 3 f_equal.
  induction Hg as [|k g kids gs Hk _ IH]; simpl; [done|]. rewrite IH. f_equal.
  destruct Hk as [a rk g' _ Hr]. simpl. f_equal.
  induction Hr as [|x r xs rs Hx _ IH']; simpl; [done|]. rewrite IH'. f_equal.
  by destruct Hx.
Qed.

(** C22: Refinement, parsing side: a tree in the spec's format parses to the
    document the format assigns it. *)
Theorem spec_parse_complete t d : file_tree t d -> BuildRuleFile.parse_root t = Ok d.
Proof. intros H. rewrite <- (retag_file_tree t d) by done. by apply file_tree_parse. Qed.

(** *** The checks decide the format *)

Lemma forall2b_Forall2 {A B} (f : A -> B -> bool) (P : A -> B -> Prop) l1 l2 :
  (forall x y, f x y = true <-> P x y) -> forall2b f l1 l2 = true <-> Forall2 P l1 l2.
Proof.
  intros Hf. revert l2; induction l1 as [|x l1 IH]; intros [|y l2]; simpl;
    try (split; [discriminate|inversion 1]).
  - split; constructor.
  - rewrite andb_true_iff, Hf, IH. split; [intros []; by constructor|by inversion 1].
Qed.

Lemma lookups_ok_Forall a kvs :
  lookups_ok a kvs = true <-> Forall (fun kv => assoc_get kv.1 a = Some kv.2) kvs.
Proof.
  unfold lookups_ok. rewrite forallb_forall, Forall_forall.
  split; intros H kv Hkv.
  - eapply bool_decide_eq_true_1, H. by apply list_elem_of_In.
  - apply bool_decide_eq_true_2, H. by apply list_elem_of_In.
Qed.

Lemma rule_treeb_spec n r : rule_treeb n r = true <-> rule_tree n r.
Proof.
  destruct n as [tg a kids| |]; cbn [rule_treeb]; [|split; [discriminate|inversion 1]..].
  rewrite !andb_true_iff, !bool_decide_eq_true, lookups_ok_Forall.
  split; [intros [[-> ->] H]; by constructor|by inversion 1].
Qed.

Lemma group_treeb_spec n g : group_treeb n g = true <-> group_tree n g.
Proof.
  destruct n as [tg a kids| |]; cbn [group_treeb]; [|split; [discriminate|inversion 1]..].
  rewrite !andb_true_iff, bool_decide_eq_true, lookups_ok_Forall,
    (forall2b_Forall2 _ rule_tree) by apply rule_treeb_spec.
  split; [intros [[-> ?] ?]; by constructor|by inversion 1].
Qed.

Lemma file_treeb_spec t d : file_treeb t d = true <-> file_tree t d.
Proof.
  split.
  - destruct t as [rt ra [|[vtag va kids| |] [|]]| |]; cbn [file_treeb]; try discriminate.
    rewrite andb_true_iff, bool_decide_eq_true, (forall2b_Forall2 _ group_tree)
      by apply group_treeb_spec.
    intros [? ?]. by constructor.
  - intros [rt ra vtag va kids d' Hv Hg]. cbn [file_treeb].
    rewrite andb_true_iff, bool_decide_eq_true, (forall2b_Forall2 _ group_tree)
      by apply group_treeb_spec. done.
Qed.

#[global] Instance file_tree_dec t d : Decision (file_tree t d).
Proof. destruct (file_treeb t d) eqn:E; [left|right]; rewrite <- file_treeb_spec; congruence. Defined.

(** *** Every tree the code writes is in the format *)

Lemma rule_element_tree r : rule_tree (BuildRule.element r) r.
Proof. constructor. apply attrs_lookup_self_rule. Qed.

Lemma group_element_tree g : group_tree (BuildGroup.element g) g.
Proof.
  constructor; [apply attrs_lookup_self_group|].
  induction (BuildGroup.rules g); constructor; auto using rule_element_tree.
Qed.

(** C23: Refinement, writing side: whatever [to_element] writes for a
    version whose upper-cased form lxml keeps as a tag is in the spec's
    write format: root [BUILD_RULE], the version upper-cased, the groups
    and rules in order under their fixed tags with their attributes; read
    back, it is the document with its version lower-cased. *)
Theorem spec_write_sound d e :
  tag_ok (str_upper (BuildRuleFile.version d)) = true ->
  BuildRuleFile.to_element d = Ok (true, Some e) ->
  written_tree e d
  /\ file_tree e (BuildRuleFile.mk (str_lower (BuildRuleFile.version d)) (BuildRuleFile.buildgroups d)).
Proof.
  intros Htag. destruct (BuildRuleFile.encodable d) eqn:H.
  - rewrite BuildRuleFile.file_to_element_ok by done. intros [= <-].
    unfold BuildRuleFile.element. rewrite BuildRuleFile.made_tag_ok by done.
    assert (Forall2 group_tree (map BuildGroup.element (BuildRuleFile.buildgroups d))
              (BuildRuleFile.buildgroups d)) as Hg.
    { induction (BuildRuleFile.buildgroups d); constructor; auto using group_element_tree. }
    split; constructor; [done| |done]. simpl. by rewrite str_lower_upper.
  - destruct (BuildRuleFile.file_to_element_err d H) as (v & ->). discriminate.
Qed.

(** C24: The parse does not check the fixed tag names of the format: a
    tree in the format with its groups and rules under any other tags
    parses to the same document, although it is no longer in the format. *)
Theorem parse_ignores_tags t d tg tr :
  file_tree t d ->
  BuildRuleFile.parse_root (retag tg tr t) = Ok d
  /\ (tg <> "buildgroup" -> BuildRuleFile.buildgroups d <> [] ->
      forall d', ~ file_tree (retag tg tr t) d').
Proof.
  intros Ht. split; [by apply file_tree_parse|]. intros Htg Hne d' Ht'.
  destruct Ht as [rt ra vtag va kids d0 _ Hg]. simpl in Ht'.
  inversion Ht' as [? ? ? ? ? ? _ Hg']; subst.
  destruct Hg as [|k g kids gs Hk _]; [done|].
  simpl in Hg'. inversion Hg' as [|? ? ? ? Hk' _]; subst.
  destruct Hk as [a rk g' _ _]. simpl in Hk'. by inversion Hk'.
Qed.

(** *** Witnesses *)

Lemma spec_parse_complete_witness :
  file_tree BuildRuleFile.example_root BuildRuleFile.example
  /\ BuildRuleFile.parse_root BuildRuleFile.example_root = Ok BuildRuleFile.example.
Proof.
  split; [apply file_treeb_spec; vm_compute; reflexivity|].
  apply spec_parse_complete. apply file_treeb_spec. vm_compute. reflexivity.
Defined.

Lemma spec_write_sound_witness :
  tag_ok (str_upper (BuildRuleFile.version BuildRuleFile.example)) = true
  /\ BuildRuleFile.to_element BuildRuleFile.example
    = Ok (true, Some (BuildRuleFile.element BuildRuleFile.example))
  /\ (written_tree (BuildRuleFile.element BuildRuleFile.example) BuildRuleFile.example
      /\ file_tree (BuildRuleFile.element BuildRuleFile.example)
           (BuildRuleFile.mk (str_lower (BuildRuleFile.version BuildRuleFile.example))
              (BuildRuleFile.buildgroups BuildRuleFile.example))).
Proof.
  split; [reflexivity|]. split; [vm_compute; reflexivity|].
  apply spec_write_sound; [reflexivity|vm_compute; reflexivity].
Defined.

Lemma parse_ignores_tags_witness :
  file_tree BuildRuleFile.example_root BuildRuleFile.example
  /\ "group" <> "buildgroup" /\ BuildRuleFile.buildgroups BuildRuleFile.example <> []
  /\ (BuildRuleFile.parse_root (retag "group" "item" BuildRuleFile.example_root) = Ok BuildRuleFile.example
      /\ ("group" <> "buildgroup" -> BuildRuleFile.buildgroups BuildRuleFile.example <> [] ->
          forall d', ~ file_tree (retag "group" "item" BuildRuleFile.example_root) d')).
Proof.
  assert (file_tree BuildRuleFile.example_root BuildRuleFile.example) as Ht
    by (apply file_treeb_spec; vm_compute; reflexivity).
  split; [exact Ht|]. split; [discriminate|]. split; [discriminate|].
  by apply parse_ignores_tags.
Defined.

End FileFormat.
